(** * MotivAI voice agent: the API handlers and the page's orchestration

    A shallow embedding of
      - [pages/api/motivate.ts]  (the generation handler),
      - [pages/api/stats.ts]     (the statistics handler),
      - [pages/index.tsx]        (speech synthesis, capture, typing
                                  animation, usage counters, voice and
                                  language selection),
      - [pages/login.tsx] and [pages/api/auth/[...nextauth].ts]
                                 (redirects and session callbacks),
    followed by the properties established about them. *)

From Stdlib Require Import Bool Arith Lia List String Ascii ZArith.
From Stdlib Require QArith_base DecimalString.
Import ListNotations.
Open Scope list_scope.
Open Scope string_scope.
Open Scope nat_scope.

(* ===================================================================== *)
(** ** JavaScript values as the handlers see them *)
(* ===================================================================== *)

Module JS.

#[local] Set Warnings "-register-all".

(** What [JSON.parse] can produce.  An object is the list of its own
    properties; a lookup takes the first binding of a key. *)
Inductive json : Type :=
| JNull
| JBool (b : bool)
| JNum (q : QArith_base.Q)
| JStr (s : string)
| JArr (xs : list json)
| JObj (fields : list (string * json)).

(** A JavaScript value reaching the handler: [None] is [undefined]. *)
Definition value : Type := option json.

(** Errors that can be thrown or rejected while a handler runs.
    [TypeError] and [SyntaxError] are raised by the engine itself (their
    message text is the engine's); [Failure m] is an [Error] object with
    message [m], created by [new Error(m)] or rejected by a collaborator. *)
Inductive exn : Type :=
| TypeError
| SyntaxError
| Failure (message : string).

Inductive result (A : Type) : Type :=
| Ok (a : A)
| Throw (e : exn).
Arguments Ok {A} a.
Arguments Throw {A} e.

Definition rbind {A B} (r : result A) (k : A -> result B) : result B :=
  match r with
  | Ok a => k a
  | Throw e => Throw e
  end.

(** Property keys used by the sources: an identifier ([result.candidates]),
    [.length], and the index [[0]]. *)
Inductive key : Type :=
| Named (name : string)
| Length
| Index0.

Definition key_string (k : key) : string :=
  match k with
  | Named n => n
  | Length => "length"
  | Index0 => "0"
  end.

Fixpoint lookup (k : string) (fields : list (string * json)) : value :=
  match fields with
  | [] => None
  | (k', v) :: rest => if String.eqb k k' then Some v else lookup k rest
  end.

Definition nat_num (n : nat) : json := JNum (QArith_base.Qmake (Z.of_nat n) 1).

(** [charAt0 s] is [s.charAt(0)] (and [s[0]] when [s] is not empty). *)
Definition charAt0 (s : string) : string :=
  match s with
  | EmptyString => EmptyString
  | String c _ => String c EmptyString
  end.

(** [v.k] and [v[0]].  Reading a property of [undefined] or [null] throws a
    TypeError; booleans and numbers have none of the properties read here;
    strings and arrays have [length] and indices; [Named] is only used with
    the identifiers of the sources (candidates, content, parts, text, prompt,
    ...), which are not properties of strings and arrays. *)
Definition prop (k : key) (v : value) : result value :=
  match v with
  | None => Throw TypeError
  | Some JNull => Throw TypeError
  | Some (JBool _) => Ok None
  | Some (JNum _) => Ok None
  | Some (JStr s) =>
      match k with
      | Length => Ok (Some (nat_num (String.length s)))
      | Index0 => Ok (match s with
                      | EmptyString => None
                      | _ => Some (JStr (charAt0 s))
                      end)
      | Named _ => Ok None
      end
  | Some (JArr xs) =>
      match k with
      | Length => Ok (Some (nat_num (List.length xs)))
      | Index0 => Ok (nth_error xs 0)
      | Named _ => Ok None
      end
  | Some (JObj fields) => Ok (lookup (key_string k) fields)
  end.

(** ToBoolean. *)
Definition truthy (v : value) : bool :=
  match v with
  | None => false
  | Some JNull => false
  | Some (JBool b) => b
  | Some (JNum q) => negb (QArith_base.Qnum q =? 0)%Z
  | Some (JStr s) => negb (String.eqb s "")
  | Some (JArr _) => true
  | Some (JObj _) => true
  end.

(** [v === s] for a string literal [s]. *)
Definition strict_eq_string (v : value) (s : string) : bool :=
  match v with
  | Some (JStr t) => String.eqb t s
  | _ => false
  end.

(** What the engine does with numbers and with characters outside ASCII is
    taken as given:
    - [ToNumber_gt0 j] is [j > 0] for a string, an array or an object [j],
      which goes through ToPrimitive and StringToNumber; it is [None] when
      that conversion throws a TypeError;
    - [NumberToString q] is the text of the number [q] (Number::toString);
    - [toUpperCase s] is [s.toUpperCase()] for a string [s] of one character
      outside ASCII (the case mapping of Unicode). *)
Record engine : Type := {
  ToNumber_gt0 : json -> option bool;
  NumberToString : QArith_base.Q -> string;
  toUpperCase : string -> string
}.

(** [v > 0] needs ToNumber.  For [undefined], [null], booleans and numbers
    it is immediate; for a string, an array or an object it is the
    engine's. *)
Definition gt0 (js : engine) (v : value) : result bool :=
  match v with
  | None => Ok false
  | Some JNull => Ok false
  | Some (JBool b) => Ok b
  | Some (JNum q) => Ok (0 <? QArith_base.Qnum q)%Z
  | Some j =>
      match ToNumber_gt0 js j with
      | Some b => Ok b
      | None => Throw TypeError
      end
  end.

(** ToString of a value that [JSON.parse] produced, as a template literal
    applies it.  An array is joined with commas, [null] elements giving the
    empty text.  An object goes through OrdinaryToPrimitive: an own
    property [toString] is never callable, and [valueOf], own or inherited,
    yields no primitive, so that a TypeError is thrown; without an own
    [toString] the inherited one answers [[object Object]]. *)
Fixpoint ToString_json (js : engine) (j : json) : result string :=
  match j with
  | JNull => Ok "null"
  | JBool b => Ok (if b then "true" else "false")
  | JNum q => Ok (NumberToString js q)
  | JStr s => Ok s
  | JArr xs =>
      (fix join (xs : list json) : result string :=
         match xs with
         | [] => Ok ""
         | x :: rest =>
             rbind (match x with
                    | JNull => Ok ""
                    | _ => ToString_json js x
                    end) (fun s =>
             match rest with
             | [] => Ok s
             | _ => rbind (join rest) (fun t => Ok (s ++ "," ++ t))
             end)
         end) xs
  | JObj fields =>
      match lookup "toString" fields with
      | Some _ => Throw TypeError
      | None => Ok "[object Object]"
      end
  end.

Definition ToString (js : engine) (v : value) : result string :=
  match v with
  | None => Ok "undefined"
  | Some j => ToString_json js j
  end.

End JS.

(* ===================================================================== *)
(** ** String operations of the sources *)
(* ===================================================================== *)

(** The text that goes through [toUpperCase] and [trim] is held in UTF-8: a
    character of the ASCII range is one byte, any other character of the
    Basic Multilingual Plane two or three bytes, and a character outside it
    four bytes (two code units of the JavaScript string). *)
Module Str.

Definition is_lower (c : ascii) : bool :=
  let n := nat_of_ascii c in (97 <=? n) && (n <=? 122).

(** [c.toUpperCase()] for one character of the ASCII range. *)
Definition upper (c : ascii) : ascii :=
  if is_lower c then ascii_of_nat (nat_of_ascii c - 32) else c.

(** White space and line terminators of one byte, removed by [trim]:
    TAB, LF, VT, FF, CR and SPACE. *)
Definition is_ws (c : ascii) : bool :=
  let n := nat_of_ascii c in
  (n =? 9) || (n =? 10) || (n =? 11) || (n =? 12) || (n =? 13) || (n =? 32).

(** The one of two bytes: NO-BREAK SPACE U+00A0 (C2 A0). *)
Definition is_ws2 (c1 c2 : ascii) : bool :=
  (nat_of_ascii c1 =? 194) && (nat_of_ascii c2 =? 160).

(** Those of three bytes: U+1680 (E1 9A 80), U+2000 to U+200A
    (E2 80 80 to E2 80 8A), the line and paragraph separators U+2028 and
    U+2029 (E2 80 A8, E2 80 A9), U+202F (E2 80 AF), U+205F (E2 81 9F),
    U+3000 (E3 80 80) and the byte order mark U+FEFF (EF BB BF). *)
Definition is_ws3 (c1 c2 c3 : ascii) : bool :=
  let a := nat_of_ascii c1 in
  let b := nat_of_ascii c2 in
  let c := nat_of_ascii c3 in
  ((a =? 225) && (b =? 154) && (c =? 128)) ||
  ((a =? 226) && (b =? 128) &&
   (((128 <=? c) && (c <=? 138)) || (c =? 168) || (c =? 169) || (c =? 175))) ||
  ((a =? 226) && (b =? 129) && (c =? 159)) ||
  ((a =? 227) && (b =? 128) && (c =? 128)) ||
  ((a =? 239) && (b =? 187) && (c =? 191)).

(** [s.slice(1)] *)
Definition slice1 (s : string) : string :=
  match s with
  | EmptyString => EmptyString
  | String _ r => r
  end.

(** [s.charAt(0).toUpperCase() + s.slice(1)].  [charAt(0)] is the first code
    unit of [s]: the whole first character when it is of the Basic
    Multilingual Plane, which goes through [toUpperCase] (the engine's
    outside ASCII); for a character outside that plane it is a lone
    surrogate, which [toUpperCase] leaves alone, so that [s] comes back. *)
Definition capitalize (toUpperCase : string -> string) (s : string) : string :=
  match s with
  | EmptyString => EmptyString
  | String c1 r1 =>
      let n := nat_of_ascii c1 in
      if n <? 128 then String (upper c1) r1
      else if n <? 224 then
        match r1 with
        | String c2 r2 =>
            toUpperCase (String c1 (String c2 EmptyString)) ++ r2
        | EmptyString => s
        end
      else if n <? 240 then
        match r1 with
        | String c2 (String c3 r3) =>
            toUpperCase (String c1 (String c2 (String c3 EmptyString))) ++ r3
        | _ => s
        end
      else s
  end.

(** What follows the white space character at the head of [s], if [s]
    begins with one. *)
Definition skip_ws (s : string) : option string :=
  match s with
  | EmptyString => None
  | String c1 r1 =>
      if is_ws c1 then Some r1
      else match r1 with
           | EmptyString => None
           | String c2 r2 =>
               if is_ws2 c1 c2 then Some r2
               else match r2 with
                    | EmptyString => None
                    | String c3 r3 =>
                        if is_ws3 c1 c2 c3 then Some r3 else None
                    end
           end
  end.

(** [s.trimStart()] *)
Fixpoint trimStart (s : string) : string :=
  match s with
  | EmptyString => EmptyString
  | String c1 r1 =>
      if is_ws c1 then trimStart r1
      else match r1 with
           | EmptyString => s
           | String c2 r2 =>
               if is_ws2 c1 c2 then trimStart r2
               else match r2 with
                    | EmptyString => s
                    | String c3 r3 =>
                        if is_ws3 c1 c2 c3 then trimStart r3 else s
                    end
           end
  end.

(** A text made of white space only. *)
Definition blank (s : string) : bool :=
  match trimStart s with
  | EmptyString => true
  | _ => false
  end.

(** [s.trimEnd()]: [s] up to its longest ending made of white space. *)
Fixpoint trimEnd (s : string) : string :=
  match s with
  | EmptyString => EmptyString
  | String c r => if blank s then EmptyString else String c (trimEnd r)
  end.

(** [s.trim()] *)
Definition trim (s : string) : string := trimEnd (trimStart s).

(** [s.split(sep)] for a one-character separator: the pieces between the
    occurrences of [sep]; never empty. *)
Fixpoint split (sep : ascii) (s : string) : list string :=
  match s with
  | EmptyString => [EmptyString]
  | String c r =>
      if Ascii.eqb c sep then EmptyString :: split sep r
      else match split sep r with
           | [] => [String c EmptyString]
           | piece :: pieces => String c piece :: pieces
           end
  end.

(** [xs[0]] on an array of strings that is known to be non-empty. *)
Definition first (xs : list string) : string := hd EmptyString xs.

Fixpoint last_char (s : string) : option ascii :=
  match s with
  | EmptyString => None
  | String c EmptyString => Some c
  | String _ r => last_char r
  end.

Definition first_char (s : string) : option ascii :=
  match s with
  | EmptyString => None
  | String c _ => Some c
  end.

Fixpoint mem (c : ascii) (s : string) : bool :=
  match s with
  | EmptyString => false
  | String d r => Ascii.eqb c d || mem c r
  end.

End Str.

(* ===================================================================== *)
(** ** pages/api/motivate.ts *)
(* ===================================================================== *)

Module Motivate.
Import JS.

Record request : Type := {
  method : string;
  body : value           (* req.body *)
}.

(** The texts interpolated into the template literal [modifiedPrompt]; the
    fixed text of the template is not reproduced. *)
Record modified_prompt : Type := {
  p_prompt : string;             (* ${prompt} *)
  p_greetingPhrase : string;     (* ${greetingPhrase} *)
  p_userFirstName : string;      (* ${userFirstName} *)
  p_language : string            (* 'Marathi' or 'English' *)
}.

(** The fields destructured from [req.body] (line 39). *)
Record fields : Type := {
  prompt : value;
  inputLanguage : value;
  outputLanguage : value;
  userId : value;
  userName : value
}.

(** The document handed to [interactionsCollection.insertOne]. *)
Record interaction : Type := {
  doc_userId : value;
  doc_userName : value;
  doc_userPrompt : value;
  doc_aiResponse : string;
  doc_inputLanguage : value;
  doc_outputLanguage : value;
  doc_timestamp : Z
}.

Inductive logged : Type :=
| LText (s : string)
| LExn (e : exn)
| LValue (v : value).

(** What the handler does to the outside world, in order. *)
Inductive effect : Type :=
| ConsoleLog (label : string)
| ConsoleWarn (label : string) (detail : logged)
| ConsoleError (label : string) (detail : logged)
| GeminiFetch (p : modified_prompt)
| InsertOne (doc : interaction).

(** The [error] field of a 500 body: the message of the caught error. *)
Inductive error_text : Type :=
| EngineText (e : exn)
| Text (s : string).

(** [res.status(status).json({ message, error })] *)
Record response : Type := {
  status : nat;
  message : string;
  error : option error_text
}.

Inductive fetch_outcome : Type :=
| NetworkFailure (reason : string)
| HttpResponse (http_status : nat) (text : string) (parsed : option json).

(** The collaborators of one request. *)
Record env : Type := {
  clientPromise : result unit;       (* await clientPromise *)
  GEMINI_API_KEY : option string;    (* process.env.GEMINI_API_KEY *)
  gemini : fetch_outcome;            (* await fetch(apiUrl, ...) *)
  insertOne : result unit;           (* await insertOne(...) *)
  now : Z                            (* new Date() *)
}.

(** [response.ok] *)
Definition http_ok (st : nat) : bool := (200 <=? st) && (st <=? 299).

(** *** Effects and exceptions of the handler *)

Definition M (A : Type) : Type := (list effect * result A)%type.

Definition ret {A} (a : A) : M A := ([], Ok a).

Definition bind {A B} (m : M A) (k : A -> M B) : M B :=
  match m with
  | (l, Ok a) => let (l', r) := k a in ((l ++ l')%list, r)
  | (l, Throw e) => (l, Throw e)
  end.

Definition emit (e : effect) : M unit := ([e], Ok tt).

Definition throw {A} (e : exn) : M A := ([], Throw e).

Definition lift {A} (r : result A) : M A := ([], r).

Definition try_catch {A} (m : M A) (h : exn -> M A) : M A :=
  match m with
  | (l, Ok a) => (l, Ok a)
  | (l, Throw e) => let (l', r) := h e in ((l ++ l')%list, r)
  end.

Declare Scope handler_scope.
Delimit Scope handler_scope with handler.
Notation "x <- m ;; k" := (bind m (fun x => k))
  (at level 61, m at next level, right associativity) : handler_scope.
Notation "m ;; k" := (bind m (fun _ => k))
  (at level 61, right associativity) : handler_scope.
Notation "x <~ r ;; k" := (rbind r (fun x => k))
  (at level 61, r at next level, right associativity) : handler_scope.
Open Scope handler_scope.

Definition respond (st : nat) (msg : string) : response :=
  {| status := st; message := msg; error := None |}.

(** [errorMessage] of the catch block. *)
Definition errorMessage (e : exn) : error_text :=
  match e with
  | Failure m => Text m
  | _ => EngineText e
  end.

Definition fallback : string :=
  "I'm sorry, I couldn't generate a motivational message right now.".

(** [const { prompt, inputLanguage, outputLanguage, userId, userName } =
    req.body]: destructuring [undefined] or [null] throws. *)
Definition destructure (b : value) : result fields :=
  p <~ prop (Named "prompt") b ;;
  il <~ prop (Named "inputLanguage") b ;;
  ol <~ prop (Named "outputLanguage") b ;;
  uid <~ prop (Named "userId") b ;;
  un <~ prop (Named "userName") b ;;
  Ok {| prompt := p; inputLanguage := il; outputLanguage := ol;
        userId := uid; userName := un |}.

(** *** Personalisation (lines 56-58) *)

(** [userName && userName !== 'Guest' ? userName.split(' ')[0] : ''] *)
Definition userFirstName (name : value) : result string :=
  if truthy name && negb (strict_eq_string name "Guest") then
    match name with
    | Some (JStr s) => Ok (Str.first (Str.split " "%char s))
    | _ => Throw TypeError          (* .split is not a function *)
    end
  else Ok "".

(** [userFirstName ? `${userFirstName}, ` : ''] *)
Definition greetingPhrase (firstName : string) : string :=
  if String.eqb firstName "" then "" else firstName ++ ", ".

(** [outputLanguage === 'mr-IN' ? 'Marathi' : 'English'] *)
Definition languageName (outLang : value) : string :=
  if strict_eq_string outLang "mr-IN" then "Marathi" else "English".

Fixpoint path (ks : list key) (v : value) : result value :=
  match ks with
  | [] => Ok v
  | k :: rest => v' <~ prop k v ;; path rest v'
  end.

(** JavaScript's [a && b] in a condition: [b] is evaluated only when [a]
    holds. *)
Definition and_then (a : result bool) (b : result bool) : result bool :=
  x <~ a ;; if x then b else Ok false.

Section Generation.

Variable js : engine.

Let gt0 := JS.gt0 js.

(** The condition of lines 117-119. *)
Definition has_text (result : value) : JS.result bool :=
  let candidates := [Named "candidates"] in
  let content := [Named "candidates"; Index0; Named "content"] in
  let parts := [Named "candidates"; Index0; Named "content"; Named "parts"] in
  and_then (c <~ path candidates result ;; Ok (truthy c))
 (and_then (n <~ path (candidates ++ [Length])%list result ;; gt0 n)
 (and_then (c <~ path content result ;; Ok (truthy c))
 (and_then (p <~ path parts result ;; Ok (truthy p))
           (n <~ path (parts ++ [Length])%list result ;; gt0 n)))).

(** Lines 114-123: the message is the first part's [text], or the
    apology. *)
Definition extract (result : value) : M value :=
  ok <- lift (has_text result) ;;
  if ok then
    lift (path [Named "candidates"; Index0; Named "content"; Named "parts";
                Index0; Named "text"] result)
  else
    emit (ConsoleWarn "Unexpected Gemini response structure:" (LValue result)) ;;
    ret (Some (JStr fallback)).

(** Lines 127-131.  Only a string has [charAt], [slice] and [trim]. *)
Definition postprocess (outLang : value) (msg : value)
  : JS.result string :=
  len <~ prop Length msg ;;
  nonempty <~ gt0 len ;;
  msg' <~ (if nonempty && strict_eq_string outLang "en-US" then
             match msg with
             | Some (JStr s) =>
                 Ok (Some (JStr (Str.capitalize (toUpperCase js) s)))
             | _ => Throw TypeError
             end
           else Ok msg) ;;
  match msg' with
  | Some (JStr s) => Ok (Str.trim s)
  | _ => Throw TypeError
  end.

Definition decimal (n : nat) : string :=
  DecimalString.NilEmpty.string_of_uint (Nat.to_uint n).

(** The [try] block up to the final text (lines 47-131).  Evaluating the
    template literal converts [prompt] to a string, which can throw. *)
Definition reply (e : env) (f : fields) : M string :=
  lift (clientPromise e) ;;
  firstName <- lift (userFirstName (userName f)) ;;
  promptText <- lift (ToString js (prompt f)) ;;
  let modifiedPrompt :=
    {| p_prompt := promptText;
       p_greetingPhrase := greetingPhrase firstName;
       p_userFirstName := firstName;
       p_language := languageName (outputLanguage f) |} in
  match GEMINI_API_KEY e with
  | None | Some EmptyString =>
      throw (Failure "GEMINI_API_KEY is not set in environment variables.")
  | Some _ =>
      emit (ConsoleLog "Calling Gemini API with prompt:") ;;
      emit (GeminiFetch modifiedPrompt) ;;
      match gemini e with
      | NetworkFailure reason => throw (Failure reason)
      | HttpResponse st text parsed =>
          if negb (http_ok st) then
            emit (ConsoleError "Gemini API error response:" (LText text)) ;;
            throw (Failure ("Gemini API returned an error: "
                              ++ decimal st ++ " - " ++ text))
          else
            result <- lift (match parsed with
                            | Some j => Ok (Some j)
                            | None => Throw SyntaxError
                            end) ;;
            raw <- extract result ;;
            lift (postprocess (outputLanguage f) raw)
      end
  end.

(** The document of lines 136-144. *)
Definition record_of (e : env) (f : fields) (final : string) : interaction :=
  {| doc_userId := userId f; doc_userName := userName f;
     doc_userPrompt := prompt f; doc_aiResponse := final;
     doc_inputLanguage := inputLanguage f;
     doc_outputLanguage := outputLanguage f;
     doc_timestamp := now e |}.

(** The whole [try] block (lines 47-148). *)
Definition generate (e : env) (f : fields) : M response :=
  final <- reply e f ;;
  emit (InsertOne (record_of e f final)) ;;
  lift (insertOne e) ;;
  emit (ConsoleLog "Interaction saved to MongoDB") ;;
  ret (respond 200 final).

(** The [catch] block (lines 150-160). *)
Definition on_error (e : exn) : M response :=
  emit (ConsoleError "Error in API route:" (LExn e)) ;;
  ret {| status := 500; message := "Internal Server Error";
         error := Some (errorMessage e) |}.

(** The exported [handler].  A [Throw] in the result is an exception that
    escapes the handler. *)
Definition handler (e : env) (req : request) : M response :=
  if negb (String.eqb (method req) "POST") then
    ret (respond 405 "Method Not Allowed")
  else
    f <- lift (destructure (body req)) ;;
    if negb (truthy (prompt f)) then
      ret (respond 400 "Prompt is required")
    else
      try_catch (generate e f) on_error.

End Generation.

End Motivate.

(* ===================================================================== *)
(** ** pages/api/stats.ts *)
(* ===================================================================== *)

Module Stats.
Import JS.

(** A document of the [interactions] collection, reduced to the field the
    handler reads.  [userId] is stored as [motivate.ts] types it: a string,
    or null when the request carried none. *)
Record document : Type := {
  userId : option string
}.

Definition userId_eq_dec : forall a b : option string, {a = b} + {a <> b}.
Proof. decide equality; apply string_dec. Defined.

(** [collection.countDocuments()] *)
Definition countDocuments (c : list document) : nat := List.length c.

(** [collection.distinct('userId')]: the values of the field, each once. *)
Definition distinct_userId (c : list document) : list (option string) :=
  nodup userId_eq_dec (map userId c).

Record env : Type := {
  clientPromise : result unit;        (* await clientPromise *)
  interactions : list document;       (* the collection's contents *)
  countDocuments_call : result unit;  (* whether the call resolves *)
  distinct_call : result unit
}.

Inductive body : Type :=
| Message (message : string) (error : option Motivate.error_text)
| Counters (totalUsers totalQueries : nat).

Record response : Type := {
  status : nat;
  json : body
}.

Inductive effect : Type :=
| ConsoleError (label : string) (e : exn).

(** Lines 38-52. *)
Definition statistics (e : env) : result (nat * nat) :=
  rbind (clientPromise e) (fun _ =>
  rbind (countDocuments_call e) (fun _ =>
  let totalQueries := countDocuments (interactions e) in
  rbind (distinct_call e) (fun _ =>
  let distinctUsers := distinct_userId (interactions e) in
  let totalUsers := List.length distinctUsers in
  Ok (totalUsers, totalQueries)))).

(** The exported [handler]. *)
Definition handler (e : env) (method : string) : list effect * response :=
  if negb (String.eqb method "GET") then
    ([], {| status := 405; json := Message "Method Not Allowed" None |})
  else
    match statistics e with
    | Ok (totalUsers, totalQueries) =>
        ([], {| status := 200; json := Counters totalUsers totalQueries |})
    | Throw err =>
        ([ConsoleError "Error fetching statistics:" err],
         {| status := 500;
            json := Message "Internal Server Error"
                            (Some (Motivate.errorMessage err)) |})
    end.

(** The two queries are awaited one after the other, and [motivate.ts] can
    store turns in between: [countDocuments] then finds the collection as
    it is in [e], and [distinct] finds it with the turns [between] added.
    (Nothing in the repository removes or rewrites a document.) *)
Definition statistics_between (e : env) (between : list document)
  : result (nat * nat) :=
  rbind (clientPromise e) (fun _ =>
  rbind (countDocuments_call e) (fun _ =>
  let totalQueries := countDocuments (interactions e) in
  rbind (distinct_call e) (fun _ =>
  let distinctUsers := distinct_userId (interactions e ++ between)%list in
  let totalUsers := List.length distinctUsers in
  Ok (totalUsers, totalQueries)))).

Definition handler_between (e : env) (between : list document)
    (method : string) : list effect * response :=
  if negb (String.eqb method "GET") then
    ([], {| status := 405; json := Message "Method Not Allowed" None |})
  else
    match statistics_between e between with
    | Ok (totalUsers, totalQueries) =>
        ([], {| status := 200; json := Counters totalUsers totalQueries |})
    | Throw err =>
        ([ConsoleError "Error fetching statistics:" err],
         {| status := 500;
            json := Message "Internal Server Error"
                            (Some (Motivate.errorMessage err)) |})
    end.

End Stats.

(* ===================================================================== *)
(** ** pages/index.tsx: the typing animation (lines 317-341) *)
(* ===================================================================== *)

(** [setDisplayedAiResponse] does not change the displayed text at once: React
    queues the update and applies the queue when the component next renders,
    after the running callback has returned.  An updater function
    [prev => ...] is queued like any other update and called during that
    render; it reads the variables it closes over as they are then.  The
    state below therefore holds the queue of pending updates and the closure
    variable [i] next to the displayed text.  (When nothing at all is queued
    for the component React may compute an update at once; in the effect
    this can only happen when the displayed text is already empty, so that
    [setDisplayedAiResponse('')] changes nothing.) *)
Module Reveal.

Inductive update : Type :=
| SetTo (text : string)     (* setDisplayedAiResponse('') *)
| AppendCharAtI.            (* prev => prev + aiResponse.charAt(i) *)

Record state : Type := {
  aiResponse : string;             (* the text the effect closes over *)
  displayedAiResponse : string;
  i : nat;                         (* let i *)
  typingTimeout : bool;            (* a timeout set by typeText is pending *)
  pending : list update;           (* updates queued since the last render *)
  elapsed : nat                    (* time spent waiting for timeouts *)
}.

(** [s.charAt(n)] *)
Definition charAt (s : string) (n : nat) : string :=
  match String.get n s with
  | Some c => String c EmptyString
  | None => EmptyString
  end.

Definition apply_update (st : state) (prev : string) (u : update) : string :=
  match u with
  | SetTo text => text
  | AppendCharAtI => prev ++ charAt (aiResponse st) (i st)
  end.

(** React renders: the queued updates are applied in order. *)
Definition render (st : state) : state :=
  {| aiResponse := aiResponse st;
     displayedAiResponse :=
       fold_left (apply_update st) (pending st) (displayedAiResponse st);
     i := i st;
     typingTimeout := typingTimeout st;
     pending := [];
     elapsed := elapsed st |}.

(** [typeText] (lines 326-332). *)
Definition typeText (st : state) : state :=
  if i st <? String.length (aiResponse st) then
    {| aiResponse := aiResponse st;
       displayedAiResponse := displayedAiResponse st;
       i := S (i st);
       typingTimeout := true;                       (* setTimeout(typeText, 50) *)
       pending := (pending st ++ [AppendCharAtI])%list;
       elapsed := elapsed st |}
  else st.

(** The effect for a new value of [aiResponse]: the previous run's cleanup
    and the new run (lines 319-334). *)
Definition effect (text : string) (st : state) : state :=
  let cleared :=
    {| aiResponse := text;
       displayedAiResponse := displayedAiResponse st;
       i := i st;
       typingTimeout := false;                      (* clearTimeout *)
       pending := pending st;
       elapsed := elapsed st |} in
  if negb (String.eqb text "") then
    typeText
      {| aiResponse := text;
         displayedAiResponse := displayedAiResponse st;
         i := 0;
         typingTimeout := false;
         pending := (pending st ++ [SetTo ""])%list;
         elapsed := elapsed st |}
  else cleared.

(** [setAiResponse(text)]: the effect runs when the value changes, and the
    component renders. *)
Definition setAiResponse (text : string) (st : state) : state :=
  if String.eqb text (aiResponse st) then st else render (effect text st).

(** The pending timeout fires after 50 time units and calls [typeText]. *)
Definition tick (st : state) : state :=
  if typingTimeout st then
    render (typeText
      {| aiResponse := aiResponse st;
         displayedAiResponse := displayedAiResponse st;
         i := i st;
         typingTimeout := false;
         pending := pending st;
         elapsed := elapsed st + 50 |})
  else st.

Fixpoint ticks (n : nat) (st : state) : state :=
  match n with
  | O => st
  | S n' => ticks n' (tick st)
  end.

(** The component as mounted, before the first effect run. *)
Definition mounted : state :=
  {| aiResponse := ""; displayedAiResponse := ""; i := 0;
     typingTimeout := false; pending := []; elapsed := 0 |}.

(** The revealed length the claim speaks about. *)
Definition revealedLength (st : state) : nat :=
  String.length (displayedAiResponse st).

End Reveal.

(* ===================================================================== *)
(** ** pages/index.tsx: voices, capture, synthesis and counters *)
(* ===================================================================== *)

Module Orchestrator.

(** SpeechSynthesisVoice *)
Record voice : Type := {
  voiceURI : string;
  name : string;
  lang : string;
  default : bool
}.

(** SpeechSynthesisUtterance, as [speakText] configures it. *)
Record utterance : Type := {
  u_text : string;
  u_lang : string;
  u_voice : option voice
}.

(** The voice [speakText] puts on the utterance (lines 123-130). *)
Definition resolve_voice (voices : list voice)
    (selectedVoiceURI selectedLanguage : string) : option voice :=
  match find (fun v => String.eqb (voiceURI v) selectedVoiceURI) voices with
  | Some voiceToUse => Some voiceToUse
  | None =>
      match find (fun v => String.eqb (lang v) selectedLanguage) voices with
      | Some v => Some v
      | None => nth_error voices 0
      end
  end.

(** The recognition object: not started, capturing an utterance, or having
    delivered its result or an error and about to end.  [onresult] and [onend]
    are two events: after the result the session stays open until the end
    event is delivered. *)
Inductive session : Type :=
| Inactive
| Capturing
| ResultDelivered
| ErrorDelivered.

(** The state of the page: React state, the refs, the two speech objects of
    the platform, and the requests in flight. *)
Record state : Type := {
  listening : bool;
  userTranscript : string;
  aiResponse : string;
  isSpeaking : bool;
  isLoading : bool;
  voices : list voice;
  selectedVoiceURI : string;
  selectedLanguage : string;
  totalUsers : option nat;
  totalQueries : option nat;
  recognitionRef : bool;
  synthRef : bool;
  recognition : session;
  spoken : option utterance;
  queued : list utterance;
  cancelled : nat;
  generation : nat;
  refresh : nat;
  fetchStats : nat
}.

(** One setter per field that a handler writes. *)
Definition set_listening (x : bool) (s : state) : state :=
  {| listening := x; userTranscript := userTranscript s;
     aiResponse := aiResponse s; isSpeaking := isSpeaking s;
     isLoading := isLoading s; voices := voices s;
     selectedVoiceURI := selectedVoiceURI s;
     selectedLanguage := selectedLanguage s; totalUsers := totalUsers s;
     totalQueries := totalQueries s; recognitionRef := recognitionRef s;
     synthRef := synthRef s; recognition := recognition s;
     spoken := spoken s; queued := queued s; cancelled := cancelled s;
     generation := generation s; refresh := refresh s;
     fetchStats := fetchStats s |}.

Definition set_userTranscript (x : string) (s : state) : state :=
  {| listening := listening s; userTranscript := x;
     aiResponse := aiResponse s; isSpeaking := isSpeaking s;
     isLoading := isLoading s; voices := voices s;
     selectedVoiceURI := selectedVoiceURI s;
     selectedLanguage := selectedLanguage s; totalUsers := totalUsers s;
     totalQueries := totalQueries s; recognitionRef := recognitionRef s;
     synthRef := synthRef s; recognition := recognition s;
     spoken := spoken s; queued := queued s; cancelled := cancelled s;
     generation := generation s; refresh := refresh s;
     fetchStats := fetchStats s |}.

Definition set_aiResponse (x : string) (s : state) : state :=
  {| listening := listening s; userTranscript := userTranscript s;
     aiResponse := x; isSpeaking := isSpeaking s; isLoading := isLoading s;
     voices := voices s; selectedVoiceURI := selectedVoiceURI s;
     selectedLanguage := selectedLanguage s; totalUsers := totalUsers s;
     totalQueries := totalQueries s; recognitionRef := recognitionRef s;
     synthRef := synthRef s; recognition := recognition s;
     spoken := spoken s; queued := queued s; cancelled := cancelled s;
     generation := generation s; refresh := refresh s;
     fetchStats := fetchStats s |}.

Definition set_isSpeaking (x : bool) (s : state) : state :=
  {| listening := listening s; userTranscript := userTranscript s;
     aiResponse := aiResponse s; isSpeaking := x; isLoading := isLoading s;
     voices := voices s; selectedVoiceURI := selectedVoiceURI s;
     selectedLanguage := selectedLanguage s; totalUsers := totalUsers s;
     totalQueries := totalQueries s; recognitionRef := recognitionRef s;
     synthRef := synthRef s; recognition := recognition s;
     spoken := spoken s; queued := queued s; cancelled := cancelled s;
     generation := generation s; refresh := refresh s;
     fetchStats := fetchStats s |}.

Definition set_isLoading (x : bool) (s : state) : state :=
  {| listening := listening s; userTranscript := userTranscript s;
     aiResponse := aiResponse s; isSpeaking := isSpeaking s; isLoading := x;
     voices := voices s; selectedVoiceURI := selectedVoiceURI s;
     selectedLanguage := selectedLanguage s; totalUsers := totalUsers s;
     totalQueries := totalQueries s; recognitionRef := recognitionRef s;
     synthRef := synthRef s; recognition := recognition s;
     spoken := spoken s; queued := queued s; cancelled := cancelled s;
     generation := generation s; refresh := refresh s;
     fetchStats := fetchStats s |}.

Definition set_totalUsers (x : option nat) (s : state) : state :=
  {| listening := listening s; userTranscript := userTranscript s;
     aiResponse := aiResponse s; isSpeaking := isSpeaking s;
     isLoading := isLoading s; voices := voices s;
     selectedVoiceURI := selectedVoiceURI s;
     selectedLanguage := selectedLanguage s; totalUsers := x;
     totalQueries := totalQueries s; recognitionRef := recognitionRef s;
     synthRef := synthRef s; recognition := recognition s;
     spoken := spoken s; queued := queued s; cancelled := cancelled s;
     generation := generation s; refresh := refresh s;
     fetchStats := fetchStats s |}.

Definition set_totalQueries (x : option nat) (s : state) : state :=
  {| listening := listening s; userTranscript := userTranscript s;
     aiResponse := aiResponse s; isSpeaking := isSpeaking s;
     isLoading := isLoading s; voices := voices s;
     selectedVoiceURI := selectedVoiceURI s;
     selectedLanguage := selectedLanguage s; totalUsers := totalUsers s;
     totalQueries := x; recognitionRef := recognitionRef s;
     synthRef := synthRef s; recognition := recognition s;
     spoken := spoken s; queued := queued s; cancelled := cancelled s;
     generation := generation s; refresh := refresh s;
     fetchStats := fetchStats s |}.

Definition set_recognition (x : session) (s : state) : state :=
  {| listening := listening s; userTranscript := userTranscript s;
     aiResponse := aiResponse s; isSpeaking := isSpeaking s;
     isLoading := isLoading s; voices := voices s;
     selectedVoiceURI := selectedVoiceURI s;
     selectedLanguage := selectedLanguage s; totalUsers := totalUsers s;
     totalQueries := totalQueries s; recognitionRef := recognitionRef s;
     synthRef := synthRef s; recognition := x; spoken := spoken s;
     queued := queued s; cancelled := cancelled s;
     generation := generation s; refresh := refresh s;
     fetchStats := fetchStats s |}.

Definition set_spoken (x : option utterance) (s : state) : state :=
  {| listening := listening s; userTranscript := userTranscript s;
     aiResponse := aiResponse s; isSpeaking := isSpeaking s;
     isLoading := isLoading s; voices := voices s;
     selectedVoiceURI := selectedVoiceURI s;
     selectedLanguage := selectedLanguage s; totalUsers := totalUsers s;
     totalQueries := totalQueries s; recognitionRef := recognitionRef s;
     synthRef := synthRef s; recognition := recognition s; spoken := x;
     queued := queued s; cancelled := cancelled s;
     generation := generation s; refresh := refresh s;
     fetchStats := fetchStats s |}.

Definition set_queued (x : list utterance) (s : state) : state :=
  {| listening := listening s; userTranscript := userTranscript s;
     aiResponse := aiResponse s; isSpeaking := isSpeaking s;
     isLoading := isLoading s; voices := voices s;
     selectedVoiceURI := selectedVoiceURI s;
     selectedLanguage := selectedLanguage s; totalUsers := totalUsers s;
     totalQueries := totalQueries s; recognitionRef := recognitionRef s;
     synthRef := synthRef s; recognition := recognition s;
     spoken := spoken s; queued := x; cancelled := cancelled s;
     generation := generation s; refresh := refresh s;
     fetchStats := fetchStats s |}.

Definition set_cancelled (x : nat) (s : state) : state :=
  {| listening := listening s; userTranscript := userTranscript s;
     aiResponse := aiResponse s; isSpeaking := isSpeaking s;
     isLoading := isLoading s; voices := voices s;
     selectedVoiceURI := selectedVoiceURI s;
     selectedLanguage := selectedLanguage s; totalUsers := totalUsers s;
     totalQueries := totalQueries s; recognitionRef := recognitionRef s;
     synthRef := synthRef s; recognition := recognition s;
     spoken := spoken s; queued := queued s; cancelled := x;
     generation := generation s; refresh := refresh s;
     fetchStats := fetchStats s |}.

Definition set_generation (x : nat) (s : state) : state :=
  {| listening := listening s; userTranscript := userTranscript s;
     aiResponse := aiResponse s; isSpeaking := isSpeaking s;
     isLoading := isLoading s; voices := voices s;
     selectedVoiceURI := selectedVoiceURI s;
     selectedLanguage := selectedLanguage s; totalUsers := totalUsers s;
     totalQueries := totalQueries s; recognitionRef := recognitionRef s;
     synthRef := synthRef s; recognition := recognition s;
     spoken := spoken s; queued := queued s; cancelled := cancelled s;
     generation := x; refresh := refresh s; fetchStats := fetchStats s |}.

Definition set_refresh (x : nat) (s : state) : state :=
  {| listening := listening s; userTranscript := userTranscript s;
     aiResponse := aiResponse s; isSpeaking := isSpeaking s;
     isLoading := isLoading s; voices := voices s;
     selectedVoiceURI := selectedVoiceURI s;
     selectedLanguage := selectedLanguage s; totalUsers := totalUsers s;
     totalQueries := totalQueries s; recognitionRef := recognitionRef s;
     synthRef := synthRef s; recognition := recognition s;
     spoken := spoken s; queued := queued s; cancelled := cancelled s;
     generation := generation s; refresh := x; fetchStats := fetchStats s |}.

Definition set_fetchStats (x : nat) (s : state) : state :=
  {| listening := listening s; userTranscript := userTranscript s;
     aiResponse := aiResponse s; isSpeaking := isSpeaking s;
     isLoading := isLoading s; voices := voices s;
     selectedVoiceURI := selectedVoiceURI s;
     selectedLanguage := selectedLanguage s; totalUsers := totalUsers s;
     totalQueries := totalQueries s; recognitionRef := recognitionRef s;
     synthRef := synthRef s; recognition := recognition s;
     spoken := spoken s; queued := queued s; cancelled := cancelled s;
     generation := generation s; refresh := refresh s; fetchStats := x |}.

Definition session_eqb (a b : session) : bool :=
  match a, b with
  | Inactive, Inactive => true
  | Capturing, Capturing => true
  | ResultDelivered, ResultDelivered => true
  | ErrorDelivered, ErrorDelivered => true
  | _, _ => false
  end.

Definition is_some {A} (o : option A) : bool :=
  match o with Some _ => true | None => false end.

(** [synth.cancel()]: the queue is emptied and speaking ceases; every
    utterance removed gets an error event later. *)
Definition cancel (s : state) : state :=
  set_cancelled (cancelled s + (if is_some (spoken s) then 1 else 0)
                             + List.length (queued s))
    (set_queued [] (set_spoken None s)).

(** [speakText] (lines 109-149). *)
Definition speakText (text : string) (s : state) : state :=
  if negb (synthRef s) then s
  else
    let s1 := if is_some (spoken s) then cancel s else s in
    let utter :=
      {| u_text := text;
         u_lang := selectedLanguage s;
         u_voice := resolve_voice (voices s) (selectedVoiceURI s)
                                  (selectedLanguage s) |} in
    set_queued (queued s1 ++ [utter])%list s1.

(** [getAiMotivationalResponse] up to the first [await] (lines 153-168). *)
Definition getAiMotivationalResponse (query : string) (s : state) : state :=
  set_generation (S (generation s))
    (set_aiResponse "Thinking..." (set_isLoading true s)).

(** [toggleListening] (lines 344-377).  [recognition.start()] throws an
    InvalidStateError when the recognition object has already been started;
    the message of that error, which is the browser's, is written as its
    name. *)
Definition toggleListening (s : state) : state :=
  if negb (recognitionRef s) then
    speakText "Speech recognition not initialized."
      (set_aiResponse "Speech recognition not initialized." s)
  else if listening s then
    set_isSpeaking false s                       (* after recognition.stop() *)
  else
    let s1 := set_isSpeaking false
                (set_aiResponse "Listening..." (set_userTranscript "" s)) in
    let s2 := if synthRef s1 then cancel s1 else s1 in
    match recognition s2 with
    | Inactive => set_listening true (set_recognition Capturing s2)
    | _ =>
        speakText "Could not start microphone. Please check permissions."
          (set_aiResponse
             "Could not start microphone. Please check permissions. (InvalidStateError)"
             (set_listening false s2))
    end.

(** [stopSpeaking] (lines 380-386). *)
Definition stopSpeaking (s : state) : state :=
  if synthRef s && is_some (spoken s) then set_isSpeaking false (cancel s)
  else s.

(** The [catch] and [finally] of [getAiMotivationalResponse]. *)
Definition response_failed (errorMessage : string) (s : state) : state :=
  set_isLoading false
    (speakText "Sorry, I couldn&apos;t get a response. Please try again."
       (set_aiResponse
          ("Sorry, I couldn&apos;t get a response. Please try again. ("
             ++ errorMessage ++ ")") s)).

(** What can happen to the page. *)
Inductive event : Type :=
| ClickMicrophone
| ClickStop
| RecognitionResult (transcript : string)
| RecognitionError (reason : string)
| RecognitionEnd
| UtteranceStart
| UtteranceEnd
| UtteranceError
| CancelledUtterance
| GenerationOk (message : string)
| GenerationFailed (errorMessage : string)
| RefreshOk (users queries : nat)
| RefreshNotOk
| RefreshThrew (errorMessage : string)
| FetchStatsOk (users queries : nat)
| FetchStatsFailed.

(** Whether the platform or the user can raise the event now.  The microphone
    button is disabled while loading, the stop button unless speaking and not
    loading; an event of a speech object or of a request needs that object to
    be in the matching state. *)
Definition enabled (s : state) (e : event) : bool :=
  match e with
  | ClickMicrophone => negb (isLoading s)
  | ClickStop => isSpeaking s && negb (isLoading s)
  | RecognitionResult _ => session_eqb (recognition s) Capturing
  | RecognitionError _ => session_eqb (recognition s) Capturing
  | RecognitionEnd => negb (session_eqb (recognition s) Inactive)
  | UtteranceStart =>
      negb (is_some (spoken s)) && negb (Nat.eqb (List.length (queued s)) 0)
  | UtteranceEnd => is_some (spoken s)
  | UtteranceError => is_some (spoken s)
  | CancelledUtterance => negb (Nat.eqb (cancelled s) 0)
  | GenerationOk _ => negb (Nat.eqb (generation s) 0)
  | GenerationFailed _ => negb (Nat.eqb (generation s) 0)
  | RefreshOk _ _ => negb (Nat.eqb (refresh s) 0)
  | RefreshNotOk => negb (Nat.eqb (refresh s) 0)
  | RefreshThrew _ => negb (Nat.eqb (refresh s) 0)
  | FetchStatsOk _ _ => negb (Nat.eqb (fetchStats s) 0)
  | FetchStatsFailed => negb (Nat.eqb (fetchStats s) 0)
  end.

(** The handler run by each event. *)
Definition handle (s : state) (e : event) : state :=
  match e with
  | ClickMicrophone => toggleListening s
  | ClickStop => stopSpeaking s
  | RecognitionResult transcript =>                       (* onresult *)
      getAiMotivationalResponse transcript
        (set_userTranscript transcript
           (set_recognition ResultDelivered s))
  | RecognitionError reason =>                            (* onerror *)
      speakText ("Error: " ++ reason ++ ". Please try again.")
        (set_aiResponse ("Error: " ++ reason ++ ". Please try again.")
           (set_listening false (set_recognition ErrorDelivered s)))
  | RecognitionEnd =>                                     (* onend *)
      set_listening false (set_recognition Inactive s)
  | UtteranceStart =>                                     (* utterance.onstart *)
      set_isSpeaking true
        (set_queued (tl (queued s)) (set_spoken (hd_error (queued s)) s))
  | UtteranceEnd =>                                       (* utterance.onend *)
      set_isSpeaking false (set_spoken None s)
  | UtteranceError =>                                     (* utterance.onerror *)
      set_isSpeaking false (set_spoken None s)
  | CancelledUtterance =>                                 (* utterance.onerror *)
      set_isSpeaking false (set_cancelled (pred (cancelled s)) s)
  | GenerationOk message =>                               (* lines 175-182 *)
      set_refresh (S (refresh s))
        (speakText message
           (set_aiResponse message
              (set_generation (pred (generation s)) s)))
  | GenerationFailed errorMessage =>
      response_failed errorMessage
        (set_generation (pred (generation s)) s)
  | RefreshOk users queries =>                            (* lines 183-187 *)
      set_isLoading false
        (set_totalQueries (Some queries)
           (set_totalUsers (Some users)
              (set_refresh (pred (refresh s)) s)))
  | RefreshNotOk =>
      set_isLoading false (set_refresh (pred (refresh s)) s)
  | RefreshThrew errorMessage =>
      response_failed errorMessage (set_refresh (pred (refresh s)) s)
  | FetchStatsOk users queries =>                         (* lines 298-300 *)
      set_totalQueries (Some queries)
        (set_totalUsers (Some users)
           (set_fetchStats (pred (fetchStats s)) s))
  | FetchStatsFailed =>                                   (* lines 301-305 *)
      set_totalQueries None
        (set_totalUsers None
           (set_fetchStats (pred (fetchStats s)) s))
  end.

Definition step (s : state) (e : event) : option state :=
  if enabled s e then Some (handle s e) else None.

Fixpoint run (s : state) (trace : list event) : option state :=
  match trace with
  | [] => Some s
  | e :: rest =>
      match step s e with
      | Some s' => run s' rest
      | None => None
      end
  end.

(** The page of an authenticated user once its effects have run: the speech
    objects are set up when the browser has them (the recognition object only
    when both are there), the voices are those enumerated, and the statistics
    effect has sent its request.  The events above are those of this one
    set-up; changing the language or the voice, which runs the set-up effect
    again, is not among them. *)
Definition initial (synthesis capture : bool) (vs : list voice)
    (uri language : string) : state :=
  {| listening := false; userTranscript := "";
     aiResponse :=
       if synthesis && capture
       then "HHello! how can i funk your mental health today?"
       else "Your browser does not support Web Speech API. Please use Chrome for full functionality.";
     isSpeaking := false; isLoading := false;
     voices := vs; selectedVoiceURI := uri; selectedLanguage := language;
     totalUsers := None; totalQueries := None;
     recognitionRef := synthesis && capture; synthRef := synthesis;
     recognition := Inactive; spoken := None; queued := []; cancelled := 0;
     generation := 0; refresh := 0; fetchStats := 1 |}.

(** A generation request settles only after the recognition session that
    produced its transcript has ended. *)
Definition settles_after_end (s : state) (e : event) : bool :=
  match e with
  | GenerationOk _ | GenerationFailed _ => session_eqb (recognition s) Inactive
  | _ => true
  end.

Fixpoint ordered (s : state) (trace : list event) : bool :=
  match trace with
  | [] => true
  | e :: rest =>
      settles_after_end s e &&
      match step s e with
      | Some s' => ordered s' rest
      | None => true
      end
  end.

(** Capture and synthesis at once, by the flags of the page. *)
Definition overlap (s : state) : bool := listening s && isSpeaking s.

End Orchestrator.

(* ===================================================================== *)
(** ** The specification's own notions *)
(* ===================================================================== *)

(** Definitions that follow the words of the specification, to be compared
    with the sources' behaviour. *)
Module Spec.
Import JS Motivate.

(** A body that lacks a prompt: the prompt is absent, or the empty string.
    A request without a body has no prompt either. *)
Definition lacks_prompt (b : value) : bool :=
  match b with
  | None => true
  | Some (JObj fs) =>
      match lookup "prompt" fs with
      | None => true
      | Some (JStr EmptyString) => true
      | _ => false
      end
  | Some _ => true
  end.

(** The answer the specification gives to a request it refuses. *)
Definition refusal (req : request) : option (nat * string) :=
  if negb (String.eqb (method req) "POST") then Some (405, "Method Not Allowed")
  else if lacks_prompt (body req) then Some (400, "Prompt is required")
  else None.

(** The property [name] of a value other than [null]: an object has its own
    properties, any other value has none of the names read here. *)
Definition member (name : string) (j : json) : value :=
  match j with
  | JObj fs => lookup name fs
  | _ => None
  end.

(** A reply, other than [null], whose candidate structure is absent or
    empty: [candidates] is missing (or falsy) or an empty array; or it is an
    array whose first element, not [null], has no [content] (or a falsy
    one); or that content has no [parts] (or a falsy one), or an empty
    array as [parts]. *)
Definition absent_or_empty (result : json) : bool :=
  match result with
  | JNull => false
  | _ =>
      let candidates := member "candidates" result in
      if negb (truthy candidates) then true
      else match candidates with
           | Some (JArr []) => true
           | Some (JArr (JNull :: _)) => false
           | Some (JArr (first :: _)) =>
               match member "content" first with
               | Some content =>
                   if negb (truthy (Some content)) then true
                   else
                     let parts := member "parts" content in
                     if negb (truthy parts) then true
                     else match parts with
                          | Some (JArr []) => true
                          | _ => false
                          end
               | None => true
               end
           | _ => false
           end
  end.

(** A well-formed reply: the first part of the first candidate's content
    carries a text. *)
Definition well_formed (result : json) : bool :=
  match result with
  | JObj fs =>
      match lookup "candidates" fs with
      | Some (JArr (JObj first :: _)) =>
          match lookup "content" first with
          | Some (JObj cfs) =>
              match lookup "parts" cfs with
              | Some (JArr (JObj part :: _)) =>
                  match lookup "text" part with
                  | Some (JStr _) => true
                  | _ => false
                  end
              | _ => false
              end
          | _ => false
          end
      | _ => false
      end
  | _ => false
  end.

(** The request gets as far as a parsed reply of the backend: the database
    is connected, the API key is set, and the backend answers with a success
    status and the JSON value [result]. *)
Definition answered (e : env) (result : json) : Prop :=
  clientPromise e = Ok tt /\
  (exists c k, GEMINI_API_KEY e = Some (String c k)) /\
  (exists st text, gemini e = HttpResponse st text (Some result)
                   /\ http_ok st = true).

(** The first token of a string split on white space. *)
Fixpoint whitespace_first_token (s : string) : string :=
  match s with
  | EmptyString => EmptyString
  | String c r => if Str.is_ws c then EmptyString
                  else String c (whitespace_first_token r)
  end.

(** The voice policy as the specification words it: the selected voice only
    when its language is the requested one. *)
Definition claimed_voice (voices : list Orchestrator.voice)
    (selectedVoiceURI language : string) : option Orchestrator.voice :=
  let by_language :=
    match find (fun v => String.eqb (Orchestrator.lang v) language) voices with
    | Some v => Some v
    | None => nth_error voices 0
    end in
  match find (fun v => String.eqb (Orchestrator.voiceURI v) selectedVoiceURI)
             voices with
  | Some v => if String.eqb (Orchestrator.lang v) language then Some v
              else by_language
  | None => by_language
  end.

(** [x] is the first element of [l] that satisfies [P]. *)
Definition first_such {A} (P : A -> bool) (l : list A) (x : A) : Prop :=
  exists pre post,
    l = (pre ++ x :: post)%list /\ P x = true /\
    forallb (fun y => negb (P y)) pre = true.

End Spec.

(* ===================================================================== *)
(** ** Concrete requests and collaborators used in the examples *)
(* ===================================================================== *)

Module Samples.
Import JS Motivate.

(** The upper-case mapping of the Latin-1 range U+0080 to U+00FF, in UTF-8:
    a with grave accent to thorn (C3 A0 to C3 BE) but for the division sign
    lose 32; sharp s (C3 9F) gives SS, y with diaeresis (C3 BF) gives
    U+0178 (C5 B8), and the micro sign (C2 B5) gives U+039C (CE 9C).  Any
    other character is left as it is. *)
Definition latin1_upper (s : string) : string :=
  match s with
  | String a (String b EmptyString) =>
      let m := nat_of_ascii a in
      let n := nat_of_ascii b in
      if (m =? 195) && (160 <=? n) && (n <=? 190) && negb (n =? 183)
      then String a (String (ascii_of_nat (n - 32)) EmptyString)
      else if (m =? 195) && (n =? 159) then "SS"
      else if (m =? 195) && (n =? 191)
      then String (ascii_of_nat 197) (String (ascii_of_nat 184) EmptyString)
      else if (m =? 194) && (n =? 181)
      then String (ascii_of_nat 206) (String (ascii_of_nat 156) EmptyString)
      else s
  | _ => s
  end.

Definition integer_text (q : QArith_base.Q) : string :=
  match QArith_base.Qnum q with
  | Z0 => "0"
  | Zpos p => Motivate.decimal (Pos.to_nat p)
  | Zneg p => "-" ++ Motivate.decimal (Pos.to_nat p)
  end.

(** The engine of the examples, which use no more of it: strings, arrays
    and objects are not coerced to numbers, numbers are integers, and the
    case mapping outside ASCII is that of the Latin-1 range. *)
Definition no_coercion : engine :=
  {| ToNumber_gt0 := fun _ => None;
     NumberToString := integer_text;
     toUpperCase := latin1_upper |}.

Definition bytes (l : list nat) : string :=
  string_of_list_ascii (map ascii_of_nat l).

(** NO-BREAK SPACE, and the small and the capital e with acute accent. *)
Definition nbsp : string := bytes [194; 160].
Definition e_acute : string := bytes [195; 169].
Definition E_acute : string := bytes [195; 137].

(** Every white space character and line terminator of JavaScript, once:
    U+0009 to U+000D, U+0020, U+00A0, U+1680, U+2000 to U+200A, U+2028,
    U+2029, U+202F, U+205F, U+3000 and U+FEFF. *)
Definition blanks : string :=
  bytes [9; 10; 11; 12; 13; 32] ++ nbsp ++ bytes [225; 154; 128]
    ++ bytes [226; 128; 128; 226; 128; 129; 226; 128; 130; 226; 128; 131;
              226; 128; 132; 226; 128; 133; 226; 128; 134; 226; 128; 135;
              226; 128; 136; 226; 128; 137; 226; 128; 138]
    ++ bytes [226; 128; 168; 226; 128; 169; 226; 128; 175; 226; 129; 159]
    ++ bytes [227; 128; 128; 239; 187; 191].

(** Characters that are not white space for JavaScript: the information
    separator U+001F, the next line control U+0085, the Mongolian vowel
    separator U+180E, the zero width space U+200B and the word joiner
    U+2060. *)
Definition not_blanks : string :=
  bytes [31] ++ bytes [194; 133] ++ bytes [225; 160; 142]
    ++ bytes [226; 128; 139] ++ bytes [226; 129; 160].

Definition sample_env (reply : json) (write : result unit) : env :=
  {| clientPromise := Ok tt; GEMINI_API_KEY := Some "key";
     gemini := HttpResponse 200 "" (Some reply);
     insertOne := write; now := 0%Z |}.

Definition sample_reply (part : json) : json :=
  JObj [("candidates",
         JArr [JObj [("content", JObj [("parts", JArr [part])])]])].

Definition sample_request (b : value) : request :=
  {| method := "POST"; body := b |}.

Definition interview : value :=
  Some (JObj [("prompt", JStr "I failed my interview");
              ("inputLanguage", JStr "en-US");
              ("outputLanguage", JStr "en-US");
              ("userId", JStr "u1");
              ("userName", JStr "Ada Lovelace")]).

Definition text_path : list key :=
  [Named "candidates"; Index0; Named "content"; Named "parts"; Index0;
   Named "text"].

Definition mary_tab_ann : string := "Mary" ++ String "009"%char "Ann".

End Samples.

Module StatsSamples.
Import JS Stats.
Definition three_turns : env :=
  {| clientPromise := Ok tt;
     interactions := [ {| userId := Some "u1" |};
                       {| userId := Some "u2" |};
                       {| userId := Some "u1" |} ];
     countDocuments_call := Ok tt;
     distinct_call := Ok tt |}.
End StatsSamples.

Module VoiceSamples.
Import Orchestrator.
Definition marathi : voice :=
  {| voiceURI := "urn:voice:mr"; name := "Google Marathi"; lang := "mr-IN";
     default := false |}.
Definition english : voice :=
  {| voiceURI := "urn:voice:en"; name := "Google US English"; lang := "en-US";
     default := true |}.
Definition voice_page : state := initial true true [marathi; english] "urn:voice:mr" "en-US".
End VoiceSamples.

Module OrchestratorSamples.
Import Orchestrator.
Definition page : state := initial true true [] "" "en-US".
Definition reply_before_end : list event :=
  [ClickMicrophone; RecognitionResult "I failed my interview";
   GenerationOk "Get up and try again."; UtteranceStart].
Definition reply_after_end : list event :=
  [ClickMicrophone; RecognitionResult "I failed my interview"; RecognitionEnd;
   GenerationOk "Get up and try again."; UtteranceStart].
Definition one_turn : list event :=
  [ClickMicrophone; RecognitionResult "I failed my interview"; RecognitionEnd;
   GenerationOk "Get up and try again."; RefreshOk 3 7].
End OrchestratorSamples.


(* ===================================================================== *)
(** ** States named in the proofs *)
(* ===================================================================== *)

Module RevealStates.
Import Reveal.

(** The page once the greeting has been typed. *)
Definition greeted : state :=
  ticks 48
    (setAiResponse "HHello! how can i funk your mental health today?" mounted).

(** The state reached once [typeText] has run [j] times for the text [s]. *)
Definition typing (s : string) (j t : nat) : state :=
  {| aiResponse := s; displayedAiResponse := substring 1 j s; i := j;
     typingTimeout := true; pending := []; elapsed := t |}.

Definition typed (s : string) (t : nat) : state :=
  {| aiResponse := s; displayedAiResponse := Str.slice1 s;
     i := String.length s; typingTimeout := false; pending := [];
     elapsed := t |}.

End RevealStates.

Module OrchestratorInvariant.
Import Orchestrator.

(** What holds in every state reached by an ordered run. *)
Record inv (s : state) : Prop := {
  inv_quiet : listening s = true ->
              isSpeaking s = false /\ spoken s = None /\ queued s = [];
  inv_session : listening s = true -> recognition s <> Inactive;
  inv_refs : recognitionRef s = true -> synthRef s = true;
  inv_idle : recognitionRef s = false -> listening s = false;
  inv_loading : 0 < generation s + refresh s -> isLoading s = true;
  inv_single : generation s + refresh s <= 1;
  inv_capturing : recognition s = Capturing -> generation s + refresh s = 0;
  inv_refresh : 0 < refresh s -> recognition s = Inactive
}.

End OrchestratorInvariant.

(* ===================================================================== *)
(** ** pages/index.tsx: voice list, language and voice selection *)
(* ===================================================================== *)

Module Page.
Import Orchestrator.

(** [s.includes(sub)] *)
Definition includes (sub s : string) : bool :=
  match String.index 0 sub s with
  | Some _ => true
  | None => false
  end.

Definition set_voices (x : list voice) (s : state) : state :=
  {| listening := listening s; userTranscript := userTranscript s;
     aiResponse := aiResponse s; isSpeaking := isSpeaking s;
     isLoading := isLoading s; voices := x;
     selectedVoiceURI := selectedVoiceURI s;
     selectedLanguage := selectedLanguage s; totalUsers := totalUsers s;
     totalQueries := totalQueries s; recognitionRef := recognitionRef s;
     synthRef := synthRef s; recognition := recognition s;
     spoken := spoken s; queued := queued s; cancelled := cancelled s;
     generation := generation s; refresh := refresh s;
     fetchStats := fetchStats s |}.

Definition set_selectedVoiceURI (x : string) (s : state) : state :=
  {| listening := listening s; userTranscript := userTranscript s;
     aiResponse := aiResponse s; isSpeaking := isSpeaking s;
     isLoading := isLoading s; voices := voices s;
     selectedVoiceURI := x;
     selectedLanguage := selectedLanguage s; totalUsers := totalUsers s;
     totalQueries := totalQueries s; recognitionRef := recognitionRef s;
     synthRef := synthRef s; recognition := recognition s;
     spoken := spoken s; queued := queued s; cancelled := cancelled s;
     generation := generation s; refresh := refresh s;
     fetchStats := fetchStats s |}.

Definition set_selectedLanguage (x : string) (s : state) : state :=
  {| listening := listening s; userTranscript := userTranscript s;
     aiResponse := aiResponse s; isSpeaking := isSpeaking s;
     isLoading := isLoading s; voices := voices s;
     selectedVoiceURI := selectedVoiceURI s;
     selectedLanguage := x; totalUsers := totalUsers s;
     totalQueries := totalQueries s; recognitionRef := recognitionRef s;
     synthRef := synthRef s; recognition := recognition s;
     spoken := spoken s; queued := queued s; cancelled := cancelled s;
     generation := generation s; refresh := refresh s;
     fetchStats := fetchStats s |}.

(** The [defaultVoice] of [populateVoiceList] (lines 223-225): a Google voice
    of the language, else any voice of the language, else the first voice. *)
Definition defaultVoice (availableVoices : list voice)
    (language : string) : option voice :=
  match find (fun v => String.eqb (lang v) language
                       && includes "Google" (name v)) availableVoices with
  | Some v => Some v
  | None =>
      match find (fun v => String.eqb (lang v) language) availableVoices with
      | Some v => Some v
      | None => nth_error availableVoices 0
      end
  end.

(** [populateVoiceList] (lines 217-229), for the voices that
    [synthRef.current.getVoices()] returns: the two state changes of the
    function itself.  (On the page these changes make the set-up effect
    run again, with its cleanup; that run is not part of the function.) *)
Definition populateVoiceList (availableVoices : list voice) (s : state)
  : state :=
  if synthRef s then
    let s1 := set_voices availableVoices s in
    if String.eqb (selectedVoiceURI s) ""
       && negb (Nat.eqb (List.length availableVoices) 0) then
      match defaultVoice availableVoices (selectedLanguage s) with
      | Some v => set_selectedVoiceURI (voiceURI v) s1
      | None => s1
      end
    else s1
  else s.

(** [handleVoiceChange] (lines 389-391). *)
Definition handleVoiceChange (value : string) (s : state) : state :=
  set_selectedVoiceURI value s.

(** [handleLanguageChange] (lines 394-403).  [toggleListening] is the one of
    the current render: it sees the state as it was before the change. *)
Definition handleLanguageChange (newLang : string) (s : state) : state :=
  set_selectedVoiceURI ""
    (set_selectedLanguage newLang
       (if listening s then toggleListening s else s)).

(** The options of the voice menu (line 570). *)
Definition voice_options (s : state) : list voice :=
  filter (fun v => String.eqb (lang v) (selectedLanguage s)) (voices s).

(** [session.user], as the session callback fills it. *)
Record session_user : Type := {
  id : option string;
  user_name : option string;
  email : option string;
  image : option string
}.

(** [a || d] for an optional string [a]: [undefined] and the empty string
    are falsy. *)
Definition or_else (a : option string) (d : string) : string :=
  match a with
  | Some (String c r) => String c r
  | _ => d
  end.

(** The request of [getAiMotivationalResponse] (lines 157-168); [session]
    is [None] when there is no session or no user in it. *)
Definition generation_request (query selectedLanguage : string)
    (session : option session_user) : Motivate.request :=
  {| Motivate.method := "POST";
     Motivate.body :=
       Some (JS.JObj
         [("prompt", JS.JStr query);
          ("inputLanguage", JS.JStr selectedLanguage);
          ("outputLanguage", JS.JStr selectedLanguage);
          ("userId",
           JS.JStr (or_else (match session with
                             | Some u => id u
                             | None => None
                             end) "anonymous"));
          ("userName",
           JS.JStr (or_else (match session with
                             | Some u => user_name u
                             | None => None
                             end) "Guest"))]) |}.

(** The name in the header (line 445):
    [name?.split(' ')[0] || email?.split('@')[0]]. *)
Definition welcome_name (session : option session_user) : option string :=
  match session with
  | None => None
  | Some u =>
      match option_map (fun n => Str.first (Str.split " "%char n))
                       (user_name u) with
      | Some (String c r) => Some (String c r)
      | _ => option_map (fun e => Str.first (Str.split "@"%char e)) (email u)
      end
  end.

End Page.

(* ===================================================================== *)
(** ** pages/api/auth/[...nextauth].ts: the two callbacks *)
(* ===================================================================== *)

Module Auth.
Import JS.

(** The JWT of the session, with the fields the callbacks read and write. *)
Record JWT : Type := {
  sub : option string;
  name : option string;
  email : option string;
  picture : option string;
  accessToken : option string;
  id : option string
}.

Record Account : Type := {
  access_token : option string
}.

Record User : Type := {
  user_id : option string
}.

Record Session : Type := {
  user : Page.session_user;
  expires : string
}.

(** The [session] callback (lines 30-43); [token] is [None] when
    undefined. *)
Definition session (s : Session) (token : option JWT) : Session :=
  match token with
  | Some t =>
      {| user := {| Page.id := sub t;
                    Page.user_name := name t;
                    Page.email := email t;
                    Page.image := picture t |};
         expires := expires s |}
  | None => s
  end.

(** The [jwt] callback (lines 45-52); reading [user.id] of an undefined
    [user] throws. *)
Definition jwt (token : JWT) (u : option User) (account : option Account)
  : result JWT :=
  match account with
  | Some a =>
      match u with
      | Some usr =>
          Ok {| sub := sub token; name := name token; email := email token;
                picture := picture token;
                accessToken := access_token a;
                id := user_id usr |}
      | None => Throw TypeError
      end
  | None => Ok token
  end.

End Auth.

(* ===================================================================== *)
(** ** pages/login.tsx and pages/index.tsx: who is shown what *)
(* ===================================================================== *)

Module Navigation.

(** [status] of [useSession]. *)
Inductive status : Type :=
| loading
| authenticated
| unauthenticated.

(** The two pages: [/] is pages/index.tsx, [/login] is pages/login.tsx. *)
Inductive route : Type :=
| Home
| Login.

Inductive view : Type :=
| LoadingView          (* "Loading..." *)
| RedirectingView      (* "Redirecting to login..." *)
| LoginCard            (* the sign-in button *)
| MainContent.         (* the voice agent *)

(** The [router.push] of each page's first effect. *)
Definition redirect (r : route) (st : status) : option route :=
  match r, st with
  | Login, authenticated => Some Home     (* login.tsx lines 11-15 *)
  | Home, unauthenticated => Some Login   (* index.tsx lines 75-79 *)
  | _, _ => None
  end.

(** What each page renders. *)
Definition render (r : route) (st : status) : view :=
  match r, st with
  | Login, loading => LoadingView         (* login.tsx lines 18-24 *)
  | Login, _ => LoginCard
  | Home, loading => LoadingView          (* index.tsx lines 406-412 *)
  | Home, unauthenticated => RedirectingView
  | Home, authenticated => MainContent
  end.

(** Whether the page sets up the speech objects and asks for the statistics
    (index.tsx lines 207 and 309). *)
Definition initializes (r : route) (st : status) : bool :=
  match r, st with
  | Home, authenticated => true
  | _, _ => false
  end.

(** Following the redirects while the status stays the same. *)
Fixpoint settle (fuel : nat) (r : route) (st : status) : route :=
  match fuel with
  | O => r
  | S fuel' =>
      match redirect r st with
      | Some r' => settle fuel' r' st
      | None => r
      end
  end.

End Navigation.

(* ===================================================================== *)
(** ** Observations on effects and states used in the statements *)
(* ===================================================================== *)

Module Observe.
Import JS Motivate.

(** The collection after one more document has been stored. *)
Definition store (d : Stats.document) (e : Stats.env) : Stats.env :=
  {| Stats.clientPromise := Stats.clientPromise e;
     Stats.interactions := (Stats.interactions e ++ [d])%list;
     Stats.countDocuments_call := Stats.countDocuments_call e;
     Stats.distinct_call := Stats.distinct_call e |}.

(** A written turn as [stats.ts] finds it in the collection, when its
    [userId] is a string, which is what the page sends. *)
Definition stored (doc : interaction) : option Stats.document :=
  match doc_userId doc with
  | Some (JStr uid) => Some {| Stats.userId := Some uid |}
  | _ => None
  end.

(** The documents written by a run of the generation handler. *)
Fixpoint writes (l : list effect) : list interaction :=
  match l with
  | [] => []
  | InsertOne doc :: rest => doc :: writes rest
  | _ :: rest => writes rest
  end.

(** The prompts sent to the generation backend. *)
Fixpoint calls (l : list effect) : list modified_prompt :=
  match l with
  | [] => []
  | GeminiFetch p :: rest => p :: calls rest
  | _ :: rest => calls rest
  end.

(** [undefined] or [null]. *)
Definition nullish (v : value) : bool :=
  match v with
  | None => true
  | Some JNull => true
  | _ => false
  end.

End Observe.

Module TurnInvariant.
Import Orchestrator.

(** What holds in every state the page can reach, whatever the order of the
    events. *)
Record turn_inv (s : state) : Prop := {
  turn_loading : isLoading s = Nat.eqb (generation s + refresh s) 1;
  turn_single : generation s + refresh s <= 1;
  turn_capturing : recognition s = Capturing -> generation s + refresh s = 0;
  turn_listening : listening s = true -> recognition s <> Inactive;
  turn_unsupported : recognitionRef s = false ->
                     listening s = false /\ recognition s = Inactive /\
                     generation s + refresh s = 0
}.

End TurnInvariant.

Module ExtraSamples.
Import Orchestrator.

Definition google_en : voice :=
  {| voiceURI := "Google US English"; name := "Google US English";
     lang := "en-US"; default := false |}.
Definition plain_en : voice :=
  {| voiceURI := "Samantha"; name := "Samantha"; lang := "en-US";
     default := true |}.
Definition plain_mr : voice :=
  {| voiceURI := "Lekha"; name := "Lekha"; lang := "mr-IN";
     default := false |}.

(** A reply with two candidates, the first with two parts. *)
Definition two_candidates : list (string * JS.json) :=
  [("candidates",
    JS.JArr
      [JS.JObj [("content",
                 JS.JObj [("parts",
                           JS.JArr [JS.JObj [("text", JS.JStr "one")];
                                    JS.JObj [("text", JS.JStr "two")]])])];
       JS.JObj [("content",
                 JS.JObj [("parts",
                           JS.JArr [JS.JObj [("text", JS.JStr "three")]])])]])].

Definition ada : Page.session_user :=
  {| Page.id := Some "108"; Page.user_name := Some "Ada Lovelace";
     Page.email := Some "ada@example.org"; Page.image := None |}.

Definition ada_token : Auth.JWT :=
  {| Auth.sub := Some "108"; Auth.name := Some "Ada Lovelace";
     Auth.email := Some "ada@example.org"; Auth.picture := None;
     Auth.accessToken := None; Auth.id := None |}.

End ExtraSamples.

Module ScenarioSamples.
Import JS Motivate Samples.




End ScenarioSamples.

(* ===================================================================== *)
(** ** Facts about the string operations *)
(* ===================================================================== *)

Module StrFacts.
Import Str.

Lemma append_assoc (a b c : string) : (a ++ b) ++ c = a ++ (b ++ c).
Proof. induction a; simpl; congruence. Qed.

Lemma append_nil_r (a : string) : a ++ "" = a.
Proof. induction a; simpl; congruence. Qed.

(** [trimStart] removes the white space characters at the head one by
    one. *)
Lemma trimStart_eq (s : string) :
  trimStart s = match skip_ws s with
                | Some r => trimStart r
                | None => s
                end.
Proof.
  destruct s as [|c1 [|c2 [|c3 r3]]]; cbn; try reflexivity;
    destruct (is_ws c1); try reflexivity;
    destruct (is_ws2 c1 c2); try reflexivity;
    destruct (is_ws3 c1 c2 c3); reflexivity.
Qed.

Lemma skip_ws_length (s r : string) :
  skip_ws s = Some r -> String.length r < String.length s.
Proof.
  destruct s as [|c1 [|c2 [|c3 r3]]]; cbn; try discriminate;
    destruct (is_ws c1); try discriminate;
    try (intros [= <-]; cbn; lia);
    destruct (is_ws2 c1 c2); try discriminate;
    try (intros [= <-]; cbn; lia);
    destruct (is_ws3 c1 c2 c3); try discriminate;
    intros [= <-]; cbn; lia.
Qed.

(** Induction along the white space at the head of a text. *)
Lemma skip_ws_ind (P : string -> Prop) :
  (forall s, (forall r, skip_ws s = Some r -> P r) -> P s) ->
  forall s, P s.
Proof.
  intros step s.
  assert (H : forall n t, String.length t < n -> P t).
  { induction n as [|n IH]; intros t Hn; [lia|].
    apply step. intros r Hr. apply IH.
    pose proof (skip_ws_length t r Hr). lia. }
  apply (H (S (String.length s))). lia.
Qed.

(** The character skipped: a text [w] of one white space character. *)
Lemma skip_ws_split (s r : string) :
  skip_ws s = Some r -> exists w, s = w ++ r /\ skip_ws w = Some "".
Proof.
  destruct s as [|c1 r1]; cbn; [discriminate|].
  destruct (is_ws c1) eqn:H1.
  - intros [= <-]. exists (String c1 ""). cbn. now rewrite H1.
  - destruct r1 as [|c2 r2]; [discriminate|].
    destruct (is_ws2 c1 c2) eqn:H2.
    + intros [= <-]. exists (String c1 (String c2 "")). cbn.
      now rewrite H1, H2.
    + destruct r2 as [|c3 r3]; [discriminate|].
      destruct (is_ws3 c1 c2 c3) eqn:H3; [|discriminate].
      intros [= <-]. exists (String c1 (String c2 (String c3 ""))). cbn.
      now rewrite H1, H2, H3.
Qed.

Lemma skip_ws_app (w r x : string) :
  skip_ws w = Some r -> skip_ws (w ++ x) = Some (r ++ x).
Proof.
  destruct w as [|c1 r1]; cbn; [discriminate|].
  destruct (is_ws c1); [now intros [= <-]|].
  destruct r1 as [|c2 r2]; cbn; [discriminate|].
  destruct (is_ws2 c1 c2); [now intros [= <-]|].
  destruct r2 as [|c3 r3]; cbn; [discriminate|].
  destruct (is_ws3 c1 c2 c3); [now intros [= <-]|discriminate].
Qed.

(** A beginning of a text that does not begin with white space does not
    begin with white space either. *)
Lemma skip_ws_prefix (p q : string) :
  skip_ws (p ++ q) = None -> skip_ws p = None.
Proof.
  intros H. destruct (skip_ws p) as [r|] eqn:Hp; [|reflexivity].
  rewrite (skip_ws_app p r q Hp) in H. discriminate.
Qed.

Lemma skip_ws_trimStart (s : string) : skip_ws (trimStart s) = None.
Proof.
  induction s as [s IH] using skip_ws_ind.
  rewrite trimStart_eq. destruct (skip_ws s) as [r|] eqn:Hs; auto.
Qed.

Lemma trimStart_fixed (s : string) : skip_ws s = None -> trimStart s = s.
Proof. intros H. now rewrite trimStart_eq, H. Qed.

Lemma blank_skip (s : string) :
  blank s = true -> s = "" \/ exists r, skip_ws s = Some r /\ blank r = true.
Proof.
  unfold blank. rewrite trimStart_eq.
  destruct (skip_ws s) as [r|] eqn:Hs.
  - intros H. right. exists r. auto.
  - destruct s; [auto|discriminate].
Qed.

Lemma blank_app (a b : string) :
  blank a = true -> trimStart (a ++ b) = trimStart b.
Proof.
  induction a as [a IH] using skip_ws_ind. intros Ha.
  destruct (blank_skip a Ha) as [->|(r & Hr & Hb)]; [reflexivity|].
  rewrite trimStart_eq, (skip_ws_app a r b Hr). now apply IH.
Qed.

Lemma blank_append (a b : string) :
  blank a = true -> blank b = true -> blank (a ++ b) = true.
Proof. intros Ha Hb. unfold blank. now rewrite (blank_app a b Ha). Qed.

Lemma trimStart_split (s : string) :
  exists pre, s = pre ++ trimStart s /\ blank pre = true.
Proof.
  induction s as [s IH] using skip_ws_ind.
  rewrite trimStart_eq. destruct (skip_ws s) as [r|] eqn:Hs.
  - destruct (skip_ws_split s r Hs) as (w & -> & Hw).
    destruct (IH r eq_refl) as (pre & Hpre & Hb).
    exists (w ++ pre). split.
    + rewrite append_assoc. now rewrite <- Hpre.
    + apply blank_append; [|exact Hb].
      unfold blank. now rewrite trimStart_eq, Hw.
  - exists "". auto.
Qed.

Lemma trimEnd_split (s : string) :
  exists post, s = trimEnd s ++ post /\ blank post = true.
Proof.
  induction s as [|c r IH]; [exists ""; auto|].
  cbn [trimEnd]. destruct (blank (String c r)) eqn:Hb.
  - exists (String c r). auto.
  - destruct IH as (post & Heq & Hp). exists post.
    split; [|exact Hp]. cbn. now rewrite <- Heq.
Qed.

(** What is kept by [trimEnd] is not made of white space only. *)
Lemma not_blank_trimEnd (c : ascii) (r : string) :
  blank (String c r) = false -> blank (String c (trimEnd r)) = false.
Proof.
  intros H. destruct (blank (String c (trimEnd r))) eqn:Hb; [|reflexivity].
  destruct (trimEnd_split r) as (post & Heq & Hp).
  pose proof (blank_append _ _ Hb Hp) as Hab.
  cbn [append] in Hab. rewrite <- Heq in Hab. congruence.
Qed.

Lemma trimEnd_idempotent (s : string) : trimEnd (trimEnd s) = trimEnd s.
Proof.
  induction s as [|c r IH]; [reflexivity|].
  cbn [trimEnd]. destruct (blank (String c r)) eqn:Hb; [reflexivity|].
  cbn [trimEnd]. now rewrite (not_blank_trimEnd c r Hb), IH.
Qed.

Lemma trimStart_first (s : string) (c : ascii) :
  first_char (trimStart s) = Some c -> is_ws c = false.
Proof.
  pose proof (skip_ws_trimStart s) as H.
  destruct (trimStart s) as [|d r]; cbn in *; [discriminate|].
  intros [= <-]. destruct (is_ws d); [discriminate|reflexivity].
Qed.

Lemma trimEnd_last (s : string) (c : ascii) :
  last_char (trimEnd s) = Some c -> is_ws c = false.
Proof.
  induction s as [|d r IH]; [discriminate|].
  cbn [trimEnd]. destruct (blank (String d r)) eqn:Hb; [discriminate|].
  pose proof (not_blank_trimEnd d r Hb) as Hk.
  destruct (trimEnd r) as [|e r'] eqn:Hr.
  - cbn. intros [= <-]. unfold blank in Hk. cbn in Hk.
    destruct (is_ws d); [discriminate|reflexivity].
  - intros H. apply IH. exact H.
Qed.

Lemma skip_ws_trim (s : string) : skip_ws (trim s) = None.
Proof.
  unfold trim. destruct (trimEnd_split (trimStart s)) as (post & Heq & _).
  apply (skip_ws_prefix _ post). rewrite <- Heq. apply skip_ws_trimStart.
Qed.

Lemma trim_first (s : string) (c : ascii) :
  first_char (trim s) = Some c -> is_ws c = false.
Proof.
  pose proof (skip_ws_trim s) as H.
  destruct (trim s) as [|d r]; cbn in *; [discriminate|].
  intros [= <-]. destruct (is_ws d); [discriminate|reflexivity].
Qed.

Lemma trim_last (s : string) (c : ascii) :
  last_char (trim s) = Some c -> is_ws c = false.
Proof. apply trimEnd_last. Qed.

Lemma trim_idempotent (s : string) : trim (trim s) = trim s.
Proof.
  unfold trim at 1. rewrite (trimStart_fixed _ (skip_ws_trim s)).
  unfold trim. apply trimEnd_idempotent.
Qed.

Lemma trim_split (s : string) :
  exists pre post,
    s = pre ++ trim s ++ post /\ blank pre = true /\ blank post = true.
Proof.
  destruct (trimStart_split s) as [pre [H1 Hpre]].
  destruct (trimEnd_split (trimStart s)) as [post [H2 Hpost]].
  exists pre, post. unfold trim. now rewrite <- H2.
Qed.

(** A trimmed text has no beginning and no ending made of white space. *)
Lemma trim_no_blank_prefix (s a b : string) :
  trim s = a ++ b -> a <> "" -> blank a = false.
Proof.
  intros Heq Ha. destruct (blank a) eqn:Hb; [|reflexivity].
  destruct (blank_skip a Hb) as [->|(r & Hr & _)]; [congruence|].
  pose proof (skip_ws_trim s) as H. rewrite Heq in H.
  rewrite (skip_ws_app a r b Hr) in H. discriminate.
Qed.

Lemma trimEnd_no_blank_suffix (s : string) :
  forall a b, trimEnd s = a ++ b -> b <> "" -> blank b = false.
Proof.
  induction s as [|c r IH]; intros a b Heq Hb.
  - destruct a; cbn in Heq; [congruence|discriminate].
  - cbn [trimEnd] in Heq. destruct (blank (String c r)) eqn:Hbl.
    + destruct a; cbn in Heq; [congruence|discriminate].
    + destruct a as [|c' a']; cbn in Heq.
      * subst b. now apply not_blank_trimEnd.
      * injection Heq as _ Heq. now apply (IH a' b).
Qed.

Lemma trim_no_blank_suffix (s a b : string) :
  trim s = a ++ b -> b <> "" -> blank b = false.
Proof. apply trimEnd_no_blank_suffix. Qed.





Lemma split_nonempty (sep : ascii) (s : string) : split sep s <> [].
Proof.
  destruct s as [|c r]; simpl; [discriminate|].
  destruct (Ascii.eqb c sep); [discriminate|].
  destruct (split sep r); discriminate.
Qed.

(** The first piece of a split holds no separator, and the string is that
    piece, alone or followed by a separator. *)
Lemma split_first (sep : ascii) (s : string) :
  mem sep (first (split sep s)) = false /\
  (s = first (split sep s) \/
   exists rest, s = first (split sep s) ++ String sep rest).
Proof.
  induction s as [|c r [IHm IHs]]; simpl.
  - auto.
  - destruct (Ascii.eqb c sep) eqn:Hc.
    + apply Ascii.eqb_eq in Hc. subst c. simpl. split; [reflexivity|].
      right. now exists r.
    + pose proof (split_nonempty sep r) as Hne.
      destruct (split sep r) as [|p ps] eqn:Hsp; [congruence|].
      unfold first in *; simpl in *.
      rewrite Ascii.eqb_sym, Hc. simpl. split; [exact IHm|].
      destruct IHs as [-> | [rest ->]]; [now left|].
      right. now exists rest.
Qed.

End StrFacts.

(* ===================================================================== *)
(** ** Facts about the generation handler *)
(* ===================================================================== *)

Module MotivateFacts.
Import JS Motivate Spec.

Section WithCoercion.
Variable gt : engine.

Lemma handler_not_post e req :
  String.eqb (method req) "POST" = false ->
  handler gt e req = ([], Ok (respond 405 "Method Not Allowed")).
Proof. intros H. unfold handler. now rewrite H. Qed.

Lemma handler_post e req f :
  String.eqb (method req) "POST" = true ->
  destructure (body req) = Ok f ->
  handler gt e req =
    if negb (truthy (prompt f)) then ([], Ok (respond 400 "Prompt is required"))
    else try_catch (generate gt e f) on_error.
Proof.
  intros Hm Hd. unfold handler. rewrite Hm, Hd. simpl.
  destruct (negb (truthy (prompt f))); [reflexivity|].
  destruct (try_catch _ _) as [l r]. reflexivity.
Qed.

Lemma destructure_object fs :
  destructure (Some (JObj fs)) =
    Ok {| prompt := lookup "prompt" fs;
          inputLanguage := lookup "inputLanguage" fs;
          outputLanguage := lookup "outputLanguage" fs;
          userId := lookup "userId" fs;
          userName := lookup "userName" fs |}.
Proof. reflexivity. Qed.

Lemma generate_of_reply e f l final :
  reply gt e f = (l, Ok final) ->
  generate gt e f =
    match insertOne e with
    | Ok _ => ((l ++ [InsertOne (record_of e f final);
                      ConsoleLog "Interaction saved to MongoDB"])%list,
               Ok (respond 200 final))
    | Throw err => ((l ++ [InsertOne (record_of e f final)])%list, Throw err)
    end.
Proof.
  intros H. unfold generate. rewrite H. simpl.
  destruct (insertOne e) as [[]|err]; simpl; reflexivity.
Qed.

(** An accepted request: the shape of what the handler does. *)
Lemma handler_accepted e req f :
  String.eqb (method req) "POST" = true ->
  destructure (body req) = Ok f ->
  truthy (prompt f) = true ->
  handler gt e req =
    match reply gt e f with
    | (l, Ok final) =>
        match insertOne e with
        | Ok _ => ((l ++ [InsertOne (record_of e f final);
                          ConsoleLog "Interaction saved to MongoDB"])%list,
                   Ok (respond 200 final))
        | Throw err =>
            ((l ++ [InsertOne (record_of e f final);
                    ConsoleError "Error in API route:" (LExn err)])%list,
             Ok {| status := 500; message := "Internal Server Error";
                   error := Some (errorMessage err) |})
        end
    | (l, Throw err) =>
        ((l ++ [ConsoleError "Error in API route:" (LExn err)])%list,
         Ok {| status := 500; message := "Internal Server Error";
               error := Some (errorMessage err) |})
    end.
Proof.
  intros Hm Hd Ht.
  rewrite (handler_post e req f Hm Hd), Ht. simpl.
  destruct (reply gt e f) as [l [final|err]] eqn:Hr.
  - rewrite (generate_of_reply e f l final Hr).
    destruct (insertOne e) as [[]|err]; simpl; [reflexivity|].
    now rewrite <- app_assoc.
  - unfold generate. rewrite Hr. reflexivity.
Qed.

(** A request that gets as far as the backend's reply: [text] is the
    prompt as the template literal renders it. *)
Lemma reply_answered e f result firstName text :
  answered e result ->
  userFirstName (userName f) = Ok firstName ->
  ToString gt (prompt f) = Ok text ->
  reply gt e f =
    let (l, raw) := extract gt (Some result) in
    (ConsoleLog "Calling Gemini API with prompt:"
       :: GeminiFetch {| p_prompt := text;
                         p_greetingPhrase := greetingPhrase firstName;
                         p_userFirstName := firstName;
                         p_language := languageName (outputLanguage f) |}
       :: l,
     rbind raw (postprocess gt (outputLanguage f))).
Proof.
  intros (Hc & (c & k & Hk) & (st & txt & Hg & Hok)) Hn Hp.
  unfold reply. rewrite Hc, Hn, Hp, Hk, Hg, Hok. simpl.
  destruct (extract gt (Some result)) as [l [raw|err]]; simpl.
  - destruct (postprocess _ _ _); simpl; now rewrite ?app_nil_r.
  - reflexivity.
Qed.

(** A prompt that cannot be rendered: nothing is sent to the backend. *)
Lemma reply_unrendered e f firstName :
  clientPromise e = Ok tt ->
  userFirstName (userName f) = Ok firstName ->
  ToString gt (prompt f) = Throw TypeError ->
  reply gt e f = ([], Throw TypeError).
Proof.
  intros Hc Hn Hp. unfold reply. now rewrite Hc, Hn, Hp.
Qed.

Lemma has_text_absent result :
  absent_or_empty result = true -> has_text gt (Some result) = Ok false.
Proof.
  unfold absent_or_empty, has_text, and_then, member.
  destruct result as [| | | | |fs]; cbn; try discriminate; try reflexivity.
  intros H.
  repeat match goal with
         | H : false = true |- _ => discriminate H
         | |- ?x = ?x => reflexivity
         | H : lookup ?k ?f = _ |- context [lookup ?k ?f] => rewrite H; cbn
         | H : negb ?b = true |- _ =>
             apply negb_true_iff in H; rewrite H; cbn
         | H : context [match ?x with _ => _ end] |- _ =>
             destruct x eqn:?; cbn in *
         | |- context [if ?b then _ else _] => destruct b eqn:?; cbn in *
         end.
Qed.

Lemma postprocess_fallback lang :
  postprocess gt lang (Some (JStr fallback)) = Ok fallback.
Proof.
  unfold postprocess. simpl.
  destruct (strict_eq_string lang "en-US"); reflexivity.
Qed.


Lemma postprocess_string_other lang s :
  strict_eq_string lang "en-US" = false ->
  postprocess gt lang (Some (JStr s)) = Ok (Str.trim s).
Proof.
  intros Hl. unfold postprocess. cbn -[Str.trim]. now rewrite Hl, andb_false_r.
Qed.

(** The text of a request whose first part of the first candidate is the
    string [s] is [s]. *)
Lemma extract_text result s :
  has_text gt (Some result) = Ok true ->
  path [Named "candidates"; Index0; Named "content"; Named "parts"; Index0;
        Named "text"] (Some result) = Ok (Some (JStr s)) ->
  extract gt (Some result) = ([], Ok (Some (JStr s))).
Proof.
  intros Hh Hp. unfold extract. rewrite Hh. cbn [bind lift].
  rewrite Hp. reflexivity.
Qed.

End WithCoercion.
End MotivateFacts.

(* ===================================================================== *)
(** ** Properties of the generation handler *)
(* ===================================================================== *)

Module MotivateClaims.
Import JS Motivate Spec Samples MotivateFacts Observe.

(** C10 does not hold as stated.  A POST whose body is [null] (the JSON text
    [null]) lacks a prompt, yet it is not answered 400: destructuring the
    body throws a TypeError before the prompt is looked at and outside the
    try block, so that the handler answers nothing at all.  The same holds
    of an undefined body. *)
Lemma post_without_body_counterexample :
  let req := sample_request (Some JNull) in
  let e := sample_env JNull (Ok tt) in
  lacks_prompt (body req) = true /\
  refusal req = Some (400, "Prompt is required") /\
  handler no_coercion e req = ([], Throw TypeError) /\
  snd (handler no_coercion e req) <> Ok (respond 400 "Prompt is required") /\
  handler no_coercion e (sample_request None) = ([], Throw TypeError).
Proof.
  cbv zeta. split; [reflexivity|]. split; [reflexivity|].
  split; [reflexivity|]. split; [discriminate|reflexivity].
Qed.

(** C10, amended.  A request whose method is not POST is answered 405
    'Method Not Allowed', with no effect.  A POST whose body is undefined or
    null is not answered: a TypeError escapes the handler, with no effect
    either.  A POST with any other body is answered 400 'Prompt is
    required', with no effect (the backend is not called, nothing is
    written or logged), exactly when its prompt is falsy, which is the case
    when the prompt is absent or the empty string; with any other prompt the
    answer is 200 or 500. *)
Theorem refusal_has_no_side_effect gt e req :
  if negb (String.eqb (method req) "POST") then
    handler gt e req = ([], Ok (respond 405 "Method Not Allowed"))
  else if nullish (body req) then
    handler gt e req = ([], Throw TypeError)
  else
    exists f,
      destructure (body req) = Ok f /\
      (lacks_prompt (body req) = true -> truthy (prompt f) = false) /\
      if truthy (prompt f) then
        exists r, snd (handler gt e req) = Ok r /\
                  (status r = 200 \/ status r = 500)
      else
        handler gt e req = ([], Ok (respond 400 "Prompt is required")).
Proof.
  destruct (String.eqb (method req) "POST") eqn:Hm; cbn [negb].
  - destruct (nullish (body req)) eqn:Hn.
    + unfold handler. rewrite Hm. cbn [negb].
      destruct (body req) as [[]|]; try discriminate; reflexivity.
    + assert (Hd : exists f, destructure (body req) = Ok f /\
                     (lacks_prompt (body req) = true ->
                      truthy (prompt f) = false)).
      { destruct (body req) as [[| | | | |fs]|]; try discriminate;
          try (eexists; split; [reflexivity|reflexivity]).
        eexists. split; [apply destructure_object|]. cbn.
        destruct (lookup "prompt" fs) as [[| | |[|c s]| |]|];
          try discriminate; reflexivity. }
      destruct Hd as (f & Hd & Hl). exists f.
      split; [exact Hd|]. split; [exact Hl|].
      destruct (truthy (prompt f)) eqn:Ht.
      * rewrite (handler_accepted gt e req f Hm Hd Ht).
        destruct (reply gt e f) as [l [final|err]];
          [destruct (insertOne e)|]; eexists; (split; [reflexivity|]);
          cbn; tauto.
      * now rewrite (handler_post gt e req f Hm Hd), Ht.
  - now apply handler_not_post.
Qed.

(** C3 does not hold as stated.  The backend answers
    [get up and try again.], the final text [Get up and try again.] is
    produced, the write to the collection fails: the handler answers 500
    'Internal Server Error', not 200 with the text. *)
Lemma persistence_failure_counterexample :
  let e := sample_env (sample_reply (JObj [("text", JStr "get up and try again.")]))
                      (Throw (Failure "write failed")) in
  let req := sample_request interview in
  (exists l f, destructure (body req) = Ok f /\
               reply no_coercion e f = (l, Ok "Get up and try again.")) /\
  snd (handler no_coercion e req)
    = Ok {| status := 500; message := "Internal Server Error";
            error := Some (Text "write failed") |} /\
  snd (handler no_coercion e req) <> Ok (respond 200 "Get up and try again.").
Proof.
  cbv zeta. split; [|split].
  - eexists _, _. split; reflexivity.
  - reflexivity.
  - discriminate.
Qed.

(** C3, amended.  When a POST with a prompt has produced its final text and
    the write to the collection fails with an error, the handler logs the
    error and answers 500 'Internal Server Error' carrying the error's
    message; the text is not returned. *)
Theorem persistence_failure_answers_500 gt e req f l final err :
  String.eqb (method req) "POST" = true ->
  destructure (body req) = Ok f ->
  truthy (prompt f) = true ->
  reply gt e f = (l, Ok final) ->
  insertOne e = Throw err ->
  handler gt e req =
    ((l ++ [InsertOne (record_of e f final);
            ConsoleError "Error in API route:" (LExn err)])%list,
     Ok {| status := 500; message := "Internal Server Error";
           error := Some (errorMessage err) |}).
Proof.
  intros Hm Hd Ht Hr Hi.
  rewrite (handler_post gt e req f Hm Hd), Ht. simpl.
  rewrite (generate_of_reply gt e f l final Hr), Hi. simpl.
  now rewrite <- app_assoc.
Qed.

Lemma persistence_failure_answers_500_witness :
  exists l f,
    handler no_coercion
      (sample_env (sample_reply (JObj [("text", JStr "get up and try again.")]))
                  (Throw (Failure "write failed")))
      (sample_request interview)
    = ((l ++ [InsertOne (record_of
                (sample_env (sample_reply (JObj [("text", JStr "get up and try again.")]))
                            (Throw (Failure "write failed")))
                f "Get up and try again.");
              ConsoleError "Error in API route:" (LExn (Failure "write failed"))])%list,
       Ok {| status := 500; message := "Internal Server Error";
             error := Some (Text "write failed") |}).
Proof.
  eexists _, _.
  apply (persistence_failure_answers_500 no_coercion _ (sample_request interview));
    reflexivity.
Defined.


Lemma handler_answered gt e req f result firstName text :
  String.eqb (method req) "POST" = true ->
  destructure (body req) = Ok f ->
  truthy (prompt f) = true ->
  answered e result ->
  userFirstName (userName f) = Ok firstName ->
  ToString gt (prompt f) = Ok text ->
  insertOne e = Ok tt ->
  forall l raw final,
    extract gt (Some result) = (l, Ok raw) ->
    postprocess gt (outputLanguage f) raw = Ok final ->
    snd (handler gt e req) = Ok (respond 200 final).
Proof.
  intros Hm Hd Ht Ha Hn Hp Hi l raw final He Hpp.
  rewrite (handler_post gt e req f Hm Hd), Ht. simpl.
  pose proof (reply_answered gt e f result firstName text Ha Hn Hp) as Hr.
  rewrite He in Hr. simpl in Hr. rewrite Hpp in Hr.
  rewrite (generate_of_reply gt e f _ final Hr), Hi. reflexivity.
Qed.

(** C4 does not hold as stated.  A reply whose first part carries no [text]
    (here a part with inline data only) is not a well-formed reply, yet the
    handler does not fall back to the apology: reading [length] of
    [undefined] throws, and the request is answered 500. *)
Lemma part_without_text_counterexample :
  let result := sample_reply (JObj [("inlineData", JStr "...")]) in
  let e := sample_env result (Ok tt) in
  well_formed result = false /\
  snd (handler no_coercion e (sample_request interview))
    = Ok {| status := 500; message := "Internal Server Error";
            error := Some (EngineText TypeError) |} /\
  snd (handler no_coercion e (sample_request interview))
    <> Ok (respond 200 fallback).
Proof. cbv zeta. split; [reflexivity|]. split; [reflexivity|discriminate]. Qed.

(** C4, amended.  For a request that gets as far as the backend's reply (the
    first name and the text of the prompt could be computed), when that
    reply is a value other than [null] in which [candidates] is missing or
    an empty array, or the first candidate, not [null], has no [content],
    or that content has no [parts] or an empty array as [parts], the
    handler answers 200 with the fixed apology, which is not the empty
    string (the write to the collection succeeding). *)
Theorem absent_structure_gives_fallback gt e req f result firstName text :
  String.eqb (method req) "POST" = true ->
  destructure (body req) = Ok f ->
  truthy (prompt f) = true ->
  answered e result ->
  userFirstName (userName f) = Ok firstName ->
  ToString gt (prompt f) = Ok text ->
  insertOne e = Ok tt ->
  absent_or_empty result = true ->
  snd (handler gt e req) = Ok (respond 200 fallback) /\ fallback <> "" /\
  fallback = "I'm sorry, I couldn't generate a motivational message right now.".
Proof.
  intros Hm Hd Ht Ha Hn Hp Hi Habs.
  split; [|split; [discriminate|reflexivity]].
  eapply (handler_answered gt e req f result firstName text
            Hm Hd Ht Ha Hn Hp Hi).
  - unfold extract. rewrite (has_text_absent gt result Habs). reflexivity.
  - apply postprocess_fallback.
Qed.

Lemma sample_env_answered reply write : answered (sample_env reply write) reply.
Proof.
  split; [reflexivity|]. split.
  - exists "k"%char, "ey". reflexivity.
  - exists 200, "". split; reflexivity.
Defined.

Lemma absent_structure_gives_fallback_witness :
  snd (handler no_coercion
         (sample_env (JObj [("candidates", JArr [JBool true])]) (Ok tt))
         (sample_request interview))
    = Ok (respond 200
            "I'm sorry, I couldn't generate a motivational message right now.").
Proof.
  apply (absent_structure_gives_fallback no_coercion
           (sample_env (JObj [("candidates", JArr [JBool true])]) (Ok tt))
           (sample_request interview)
           {| prompt := Some (JStr "I failed my interview");
              inputLanguage := Some (JStr "en-US");
              outputLanguage := Some (JStr "en-US");
              userId := Some (JStr "u1");
              userName := Some (JStr "Ada Lovelace") |}
           (JObj [("candidates", JArr [JBool true])]) "Ada"
           "I failed my interview");
    try reflexivity.
  apply sample_env_answered.
Defined.

(** A prompt that is an object with a property [toString] cannot be
    rendered in the template literal: the request is answered 500 and the
    backend is not called, whatever the backend would have replied. *)
Lemma unrendered_prompt_is_answered_500 :
  handler no_coercion (sample_env (JObj [("candidates", JArr [])]) (Ok tt))
          (sample_request
             (Some (JObj [("prompt", JObj [("toString", JBool true)])])))
  = ([ConsoleError "Error in API route:" (LExn TypeError)],
     Ok {| status := 500; message := "Internal Server Error";
           error := Some (EngineText TypeError) |}).
Proof. reflexivity. Qed.

(** C8 does not hold as stated.  The name is split at the space character
    only: for [Mary<TAB>Ann] the first token between white space is [Mary],
    but the first name used is the whole of [Mary<TAB>Ann]. *)
Lemma tab_does_not_split_counterexample :
  whitespace_first_token mary_tab_ann = "Mary" /\
  userFirstName (Some (JStr mary_tab_ann)) = Ok mary_tab_ann /\
  userFirstName (Some (JStr mary_tab_ann))
    <> Ok (whitespace_first_token mary_tab_ann).
Proof. split; [reflexivity|]. split; [reflexivity|discriminate]. Qed.

(** C8, amended.  The first name is the part of [userName] before its first
    space character (all of it when it has none); an absent or empty
    [userName] and the name 'Guest' give the empty first name.  The greeting
    is empty for the empty first name, and the first name followed by a
    comma and a space otherwise. *)
Theorem first_name_is_the_text_before_the_first_space (s : string) :
  userFirstName None = Ok "" /\
  greetingPhrase "" = "" /\
  exists t,
    userFirstName (Some (JStr s)) = Ok t /\
    (if String.eqb s "" || String.eqb s "Guest" then t = ""
     else Str.mem " "%char t = false /\
    (s = t \/ exists rest, s = t ++ String " "%char rest)) /\
    greetingPhrase t = (if String.eqb t "" then "" else t ++ ", ").
Proof.
  split; [reflexivity|]. split; [reflexivity|].
  unfold userFirstName. simpl.
  destruct (String.eqb s "") eqn:He; simpl.
  - exists "". repeat split.
  - destruct (String.eqb s "Guest") eqn:Hg; simpl.
    + exists "". repeat split.
    + exists (Str.first (Str.split " "%char s)).
      split; [reflexivity|]. split; [|reflexivity].
      apply StrFacts.split_first.
Qed.

End MotivateClaims.

(* ===================================================================== *)
(** ** Properties of the statistics handler *)
(* ===================================================================== *)

Module StatsClaims.
Import JS Stats StatsSamples.


End StatsClaims.

(* ===================================================================== *)
(** ** Properties of the voice used by speakText *)
(* ===================================================================== *)

Module VoiceClaims.
Import Orchestrator Spec VoiceSamples.

Lemma find_first_such {A} (P : A -> bool) (l : list A) (x : A) :
  first_such P l x -> find P l = Some x.
Proof.
  intros (pre & post & -> & Hx & Hpre).
  induction pre as [|y pre IH]; simpl in *.
  - now rewrite Hx.
  - apply andb_true_iff in Hpre as [Hy Hpre].
    apply negb_true_iff in Hy. rewrite Hy. now apply IH.
Qed.

Lemma find_none {A} (P : A -> bool) (l : list A) :
  forallb (fun y => negb (P y)) l = true -> find P l = None.
Proof.
  induction l as [|y l IH]; simpl; [reflexivity|].
  intros H. apply andb_true_iff in H as [Hy Hl].
  apply negb_true_iff in Hy. rewrite Hy. now apply IH.
Qed.

(** C5 does not hold as stated.  With a Marathi and an English voice
    enumerated, the Marathi one selected and en-US requested, [speakText]
    speaks with the Marathi voice; the policy of the specification gives
    the English one. *)
Lemma selected_voice_of_other_language_counterexample :
  queued (speakText "Get up." voice_page)
    = [ {| u_text := "Get up."; u_lang := "en-US"; u_voice := Some marathi |} ]
  /\ lang marathi <> "en-US"
  /\ claimed_voice (voices voice_page) (selectedVoiceURI voice_page) "en-US" = Some english
  /\ resolve_voice (voices voice_page) (selectedVoiceURI voice_page) "en-US"
       <> claimed_voice (voices voice_page) (selectedVoiceURI voice_page) "en-US".
Proof.
  split; [reflexivity|]. split; [discriminate|].
  split; [reflexivity|discriminate].
Qed.

(** C5, amended.  [speakText] queues one utterance with the text and the
    selected language.  Its voice is the first enumerated voice whose URI
    is the selected one, whatever the language of that voice; when no voice
    has that URI, the first enumerated voice of the selected language; when
    there is none either, the first voice of the enumeration
    (none when it is empty). *)
Theorem spoken_voice_is_selected_else_language_else_first
    (text : string) (s : state) :
  synthRef s = true ->
  let by_uri := fun v => String.eqb (voiceURI v) (selectedVoiceURI s) in
  let by_lang := fun v => String.eqb (lang v) (selectedLanguage s) in
  exists u,
    queued (speakText text s)
      = ((if is_some (spoken s) then [] else queued s) ++ [u])%list /\
    u_text u = text /\
    u_lang u = selectedLanguage s /\
    (forall v, first_such by_uri (voices s) v -> u_voice u = Some v) /\
    (forallb (fun v => negb (by_uri v)) (voices s) = true ->
     forall v, first_such by_lang (voices s) v -> u_voice u = Some v) /\
    (forallb (fun v => negb (by_uri v)) (voices s) = true ->
     forallb (fun v => negb (by_lang v)) (voices s) = true ->
     u_voice u = nth_error (voices s) 0).
Proof.
  intros Hs by_uri by_lang.
  exists {| u_text := text; u_lang := selectedLanguage s;
            u_voice := resolve_voice (voices s) (selectedVoiceURI s)
                                     (selectedLanguage s) |}.
  split; [|split; [reflexivity|split; [reflexivity|]]].
  - unfold speakText. rewrite Hs. simpl.
    destruct (spoken s); reflexivity.
  - simpl. unfold resolve_voice. fold by_uri by_lang.
    split; [|split].
    + intros v Hv. now rewrite (find_first_such _ _ _ Hv).
    + intros Hn v Hv.
      now rewrite (find_none _ _ Hn), (find_first_such _ _ _ Hv).
    + intros Hn Hl. now rewrite (find_none _ _ Hn), (find_none _ _ Hl).
Qed.

Lemma spoken_voice_is_selected_else_language_else_first_witness :
  exists u,
    queued (speakText "Get up." voice_page) = [u] /\
    u_voice u = Some marathi.
Proof.
  destruct (spoken_voice_is_selected_else_language_else_first "Get up." voice_page
              eq_refl) as (u & Hq & _ & _ & Huri & _).
  exists u. split; [exact Hq|].
  apply Huri. exists [], [english]. repeat split.
Defined.

End VoiceClaims.

(* ===================================================================== *)
(** ** Properties of the typing animation *)
(* ===================================================================== *)

Module RevealClaims.
Import Reveal RevealStates.

Lemma substring_snoc (s : string) :
  forall a j, substring a j s ++ charAt s (a + j) = substring a (S j) s.
Proof.
  unfold charAt.
  induction s as [|c r IH]; intros a j.
  - destruct a, j; reflexivity.
  - destruct a as [|a]; simpl.
    + destruct j as [|j]; simpl.
      * destruct r; reflexivity.
      * f_equal. apply (IH 0 j).
    + apply IH.
Qed.

Lemma substring_all (s : string) :
  forall m, String.length s <= m -> substring 0 m s = s.
Proof.
  induction s as [|c r IH]; intros [|m] H; simpl in *; try reflexivity; try lia.
  f_equal. apply IH. lia.
Qed.

Lemma setAiResponse_typing st c r :
  pending st = [] -> aiResponse st <> String c r ->
  setAiResponse (String c r) st = typing (String c r) 1 (elapsed st).
Proof.
  intros Hp Hne. unfold setAiResponse.
  destruct (String.eqb (String c r) (aiResponse st)) eqn:He.
  - apply String.eqb_eq in He. congruence.
  - unfold effect, typeText, render, typing. simpl. rewrite Hp. simpl.
    f_equal. unfold charAt. destruct r as [|a [|b r]]; reflexivity.
Qed.

Lemma tick_typing s j t :
  j < String.length s ->
  tick (typing s j t) = typing s (S j) (t + 50).
Proof.
  intros Hj. unfold tick, typeText, render, typing. simpl.
  apply Nat.ltb_lt in Hj. rewrite Hj. simpl.
  f_equal. apply (substring_snoc s 1 j).
Qed.

Lemma tick_typing_done s t :
  s <> "" ->
  tick (typing s (String.length s) t) = typed s (t + 50).
Proof.
  intros Hs. unfold tick, typeText, render, typing, typed. simpl.
  rewrite Nat.ltb_irrefl. simpl. f_equal.
  destruct s as [|c r]; [congruence|]. simpl.
  apply substring_all. lia.
Qed.

Lemma ticks_typed s t n : ticks n (typed s t) = typed s t.
Proof. induction n; simpl; auto. Qed.

Lemma ticks_typing s : s <> "" ->
  forall n j t, 1 <= j -> j <= String.length s ->
    String.length s - j < n ->
    ticks n (typing s j t) = typed s (t + 50 * (S (String.length s - j))).
Proof.
  intros Hs. induction n as [|n IH]; intros j t H1 H2 Hn; [lia|].
  simpl. destruct (Nat.eq_dec j (String.length s)) as [->|Hne].
  - rewrite tick_typing_done by assumption. rewrite ticks_typed.
    f_equal. lia.
  - rewrite tick_typing by lia. rewrite IH by lia. f_equal. lia.
Qed.

(** C2 does not hold of the sources.  When a new non-empty text [c r] is
    handed to the animation of a page that displays some text, and at least
    as many timeouts have fired as the new text has characters, the
    animation has stopped and the displayed text is [r]: the first
    character was never displayed, and the revealed length stays one short
    of the length of the text. *)
Theorem reveal_never_shows_the_first_character
    (st : state) (c : ascii) (r : string) (n : nat) :
  pending st = [] ->
  displayedAiResponse st <> "" ->
  aiResponse st <> String c r ->
  String.length (String c r) <= n ->
  let final := ticks n (setAiResponse (String c r) st) in
  displayedAiResponse final = r /\
  typingTimeout final = false /\
  revealedLength final = String.length (String c r) - 1 /\
  displayedAiResponse final <> String c r.
Proof.
  intros Hp _ Hne Hn final. subst final.
  rewrite (setAiResponse_typing st c r Hp Hne).
  simpl in Hn.
  rewrite (ticks_typing (String c r));
    [|discriminate|lia|simpl; lia|simpl; lia].
  unfold typed, revealedLength. simpl.
  repeat split; try lia.
  intros H. apply (f_equal String.length) in H. simpl in H. lia.
Qed.

Lemma reveal_never_shows_the_first_character_witness :
  displayedAiResponse
    (ticks 21 (setAiResponse "Get up and try again." greeted))
  = "et up and try again.".
Proof.
  apply (reveal_never_shows_the_first_character greeted "G"
           "et up and try again." 21);
    [vm_compute; reflexivity | vm_compute; discriminate
     | vm_compute; discriminate | simpl; lia].
Defined.

End RevealClaims.

(* ===================================================================== *)
(** ** Facts about the page's events *)
(* ===================================================================== *)

Module OrchestratorFacts.
Import Orchestrator OrchestratorInvariant.


Lemma inv_initial synthesis capture vs uri language :
  inv (initial synthesis capture vs uri language).
Proof.
  constructor; simpl; try discriminate; try lia; intros H.
  - now apply andb_true_iff in H.
Qed.

Ltac flags :=
  repeat match goal with
         | H : _ /\ _ |- _ => destruct H
         | H : negb _ = true |- _ => apply negb_true_iff in H
         | H : negb _ = false |- _ => apply negb_false_iff in H
         | H : _ && _ = true |- _ => apply andb_true_iff in H
         | H : Nat.eqb _ _ = false |- _ => apply Nat.eqb_neq in H
         | H : Nat.eqb _ _ = true |- _ => apply Nat.eqb_eq in H
         | H : session_eqb ?r _ = _ |- _ =>
             destruct r; cbn in H; try discriminate H; clear H
         | H : is_some ?o = _ |- _ =>
             destruct o; cbn in H; try discriminate H; clear H
         end.

Ltac split_cases :=
  repeat match goal with
         | |- context [if ?b then _ else _] => destruct b eqn:?
         | |- context [match ?x with _ => _ end] => destruct x eqn:?
         end.

Ltac forward :=
  repeat match goal with
         | H : ?a = ?a -> _ |- _ => specialize (H eq_refl)
         | H : ?P -> _, H' : ?P |- _ => specialize (H H')
         | H : 0 < ?x -> _ |- _ =>
             let G := fresh in
             assert (G : 0 < x) by lia; specialize (H G); clear G
         | H : _ /\ _ |- _ => destruct H
         end.

Ltac close :=
  flags; forward; subst; cbn in *;
  first [ discriminate | congruence | lia | tauto
        | repeat split; first [ discriminate | congruence | lia | tauto ] ].

Lemma inv_step s e s' :
  inv s -> settles_after_end s e = true -> step s e = Some s' -> inv s'.
Proof.
  intros [I1 I2 I3 I4 I5 I6 I7 I8] Hord Hstep.
  unfold step in Hstep.
  destruct (enabled s e) eqn:Hen; [|discriminate].
  injection Hstep as <-.
  destruct s as [li ut ar sp lo vs uri la tu tq rr sr rc spk qu ca ge rf fs].
  destruct e; cbn in *; flags;
    unfold toggleListening, stopSpeaking, response_failed, speakText,
           getAiMotivationalResponse, cancel; cbn;
    split_cases; cbn in *; subst;
    (constructor; cbn; intros; try close).
Qed.

Lemma inv_run trace :
  forall s s', inv s -> ordered s trace = true -> run s trace = Some s' ->
               inv s'.
Proof.
  induction trace as [|e rest IH]; simpl; intros s s' Hi Ho Hr.
  - now injection Hr as <-.
  - apply andb_true_iff in Ho as [Hs Ho].
    destruct (step s e) as [s1|] eqn:Hstep; [|discriminate].
    apply (IH s1 s'); [exact (inv_step s e s1 Hi Hs Hstep)|exact Ho|exact Hr].
Qed.

(** Starting capture: [toggleListening] on a page that is not listening. *)
Lemma toggleListening_starts s :
  recognitionRef s = true -> listening s = false ->
  let s' := toggleListening s in
  isSpeaking s' = false /\
  (synthRef s = true -> spoken s' = None) /\
  (listening s' = true ->
     recognition s = Inactive /\ recognition s' = Capturing /\
     (synthRef s = true -> queued s' = [])).
Proof.
  intros Hr Hl. unfold toggleListening. rewrite Hr, Hl. simpl.
  destruct s as [li ut ar sp lo vs uri la tu tq rr sr rc spk qu ca ge rf fs].
  simpl in *. unfold speakText, cancel. simpl.
  destruct sr, rc, spk; simpl; repeat split; intros;
    try discriminate; try reflexivity.
Qed.

End OrchestratorFacts.

(* ===================================================================== *)
(** ** Properties of capture, synthesis and the counters *)
(* ===================================================================== *)

Module OrchestratorClaims.
Import Orchestrator OrchestratorInvariant OrchestratorFacts OrchestratorSamples.

(** C1 does not hold as stated.  The user starts capture, a transcript is
    recognised, and the reply arrives and starts being spoken before the
    recognition object has delivered its end event: [listening] and
    [isSpeaking] are both true. *)
Lemma reply_before_recognition_end_counterexample :
  ordered page reply_before_end = false /\
  exists s, run page reply_before_end = Some s /\
            listening s = true /\ isSpeaking s = true /\ overlap s = true.
Proof.
  split; [vm_compute; reflexivity|].
  eexists. split; [vm_compute; reflexivity|].
  split; [reflexivity|]. split; reflexivity.
Qed.

(** C1, amended.  In every state reached by a run in which each generation
    request settles after the recognition session that produced its
    transcript has ended, [listening] and [isSpeaking] are not both true;
    while [listening] is true nothing is being spoken and no utterance is
    queued.  Starting capture from such a state clears [isSpeaking] and
    cancels synthesis, so that nothing is spoken or queued when [listening]
    becomes true. *)
Theorem capture_and_synthesis_exclusive_when_ordered
    (synthesis capture : bool) (vs : list voice) (uri language : string)
    (trace : list event) (s : state) :
  run (initial synthesis capture vs uri language) trace = Some s ->
  ordered (initial synthesis capture vs uri language) trace = true ->
  overlap s = false /\
  (if listening s then
     isSpeaking s = false /\ spoken s = None /\ queued s = []
   else True) /\
  (if recognitionRef s && negb (listening s) then
     let s' := toggleListening s in
     isSpeaking s' = false /\ spoken s' = None /\
     (if listening s' then queued s' = [] else True)
   else True).
Proof.
  intros Hr Ho.
  pose proof (inv_run trace _ s (inv_initial _ _ _ _ _) Ho Hr) as Hi.
  split; [|split].
  - unfold overlap. destruct (listening s) eqn:Hl; [|reflexivity].
    destruct (inv_quiet s Hi Hl) as [-> _]. reflexivity.
  - destruct (listening s) eqn:Hl; [|exact I].
    exact (inv_quiet s Hi Hl).
  - destruct (recognitionRef s) eqn:Hrr; [|exact I].
    destruct (listening s) eqn:Hl; [exact I|]. simpl.
    pose proof (inv_refs s Hi Hrr) as Hs.
    destruct (toggleListening_starts s Hrr Hl) as (H1 & H2 & H3).
    split; [exact H1|]. split; [exact (H2 Hs)|].
    destruct (listening (toggleListening s)) eqn:Hl'; [|exact I].
    destruct (H3 eq_refl) as (_ & _ & H4). exact (H4 Hs).
Qed.

Lemma capture_and_synthesis_exclusive_when_ordered_witness :
  exists s, run page reply_after_end = Some s /\ overlap s = false.
Proof.
  eexists. split; [vm_compute; reflexivity|].
  apply (capture_and_synthesis_exclusive_when_ordered true true [] "" "en-US"
           reply_after_end); vm_compute; reflexivity.
Defined.

(** C7.  When the refresh of the usage counters that follows a reply fails,
    by a status that is not OK or by a thrown error, the two counters
    displayed stay what they were, in every state of the page; they are not
    reset to null.  The failed refresh ends the turn: the page is no longer
    loading. *)
Theorem failed_refresh_keeps_counters
    (s : state) (errorMessage : string) :
  (totalUsers (handle s RefreshNotOk) = totalUsers s /\
   totalQueries (handle s RefreshNotOk) = totalQueries s /\
   isLoading (handle s RefreshNotOk) = false) /\
  (totalUsers (handle s (RefreshThrew errorMessage)) = totalUsers s /\
   totalQueries (handle s (RefreshThrew errorMessage)) = totalQueries s /\
   isLoading (handle s (RefreshThrew errorMessage)) = false).
Proof.
  destruct s as [li ut ar sp lo vs uri la tu tq rr sr rc spk qu ca ge rf fs].
  unfold handle, response_failed, speakText, cancel. simpl.
  destruct sr, spk; simpl; repeat split.
Qed.

(** The request that the statistics effect sends when the page is mounted
    is another matter: when it fails, even after a turn has displayed 3
    users and 7 turns, both counters are reset to null. *)
Lemma failed_fetchStats_clears_counters :
  (forall s, totalUsers (handle s FetchStatsFailed) = None /\
             totalQueries (handle s FetchStatsFailed) = None) /\
  exists s s',
    run page one_turn = Some s /\
    totalUsers s = Some 3 /\ totalQueries s = Some 7 /\
    step s FetchStatsFailed = Some s' /\
    totalUsers s' = None /\ totalQueries s' = None.
Proof.
  split; [intros s; split; reflexivity|].
  eexists _, _. split; [vm_compute; reflexivity|].
  split; [reflexivity|]. split; [reflexivity|].
  split; [vm_compute; reflexivity|]. split; reflexivity.
Qed.

End OrchestratorClaims.

(* ===================================================================== *)
(** ** From the backend's text to what the page speaks and displays *)
(* ===================================================================== *)

Module ScenarioClaims.
Import JS Motivate Spec Samples MotivateFacts ScenarioSamples.






(** With the case mapping of the Latin-1 letters, a first letter outside
    ASCII is capitalised too, and a no-break space is trimmed. *)
Example capitalize_outside_ascii :
  postprocess no_coercion (Some (JStr "en-US"))
    (Some (JStr (e_acute ++ "lan vital" ++ nbsp)))
  = Ok (E_acute ++ "lan vital").
Proof. vm_compute. reflexivity. Qed.

End ScenarioClaims.

(* ===================================================================== *)
(** ** Further properties of the generation handler *)
(* ===================================================================== *)

Module MotivateMore.
Import JS Motivate Spec Samples MotivateFacts Observe ExtraSamples.

Lemma writes_app l1 l2 : writes (l1 ++ l2)%list = (writes l1 ++ writes l2)%list.
Proof.
  induction l1 as [|x l1 IH]; simpl; [reflexivity|].
  destruct x; simpl; now rewrite ?IH.
Qed.

Lemma calls_app l1 l2 : calls (l1 ++ l2)%list = (calls l1 ++ calls l2)%list.
Proof.
  induction l1 as [|x l1 IH]; simpl; [reflexivity|].
  destruct x; simpl; now rewrite ?IH.
Qed.

Section WithCoercion.
Variable gt : engine.

Lemma extract_quiet result :
  writes (fst (extract gt result)) = [] /\ calls (fst (extract gt result)) = [].
Proof.
  unfold extract. destruct (has_text gt result) as [[|]|err];
    cbn -[path]; auto.
Qed.

(** The effects of [reply]: no write, and at most the one call. *)
Lemma reply_effects e f :
  writes (fst (reply gt e f)) = [] /\
  (calls (fst (reply gt e f)) = [] \/
   exists firstName text,
     userFirstName (userName f) = Ok firstName /\
     ToString gt (prompt f) = Ok text /\
     calls (fst (reply gt e f))
       = [ {| p_prompt := text;
              p_greetingPhrase := greetingPhrase firstName;
              p_userFirstName := firstName;
              p_language := languageName (outputLanguage f) |} ]).
Proof.
  unfold reply.
  destruct (clientPromise e) as [[]|err]; simpl; [|auto].
  destruct (userFirstName (userName f)) as [firstName|err]; simpl; [|auto].
  destruct (ToString gt (prompt f)) as [text|err]; simpl; [|auto].
  destruct (GEMINI_API_KEY e) as [[|c k]|]; simpl; auto.
  destruct (gemini e) as [reason|st txt parsed]; simpl.
  - split; [reflexivity|]. right. exists firstName, text. auto.
  - destruct (http_ok st); simpl.
    + destruct parsed as [j|]; simpl.
      * destruct (extract_quiet (Some j)) as [Hw Hc].
        destruct (extract gt (Some j)) as [l [raw|err]]; simpl in *.
        -- destruct (postprocess gt (outputLanguage f) raw); simpl;
             rewrite ?app_nil_r, Hw, Hc;
             (split; [reflexivity|]; right; exists firstName, text; auto).
        -- rewrite Hw, Hc. split; [reflexivity|]. right.
           exists firstName, text. auto.
      * split; [reflexivity|]. right. exists firstName, text. auto.
    + split; [reflexivity|]. right. exists firstName, text. auto.
Qed.

(** The final text of [reply] has gone through [trim]. *)
Lemma reply_trimmed e f l final :
  reply gt e f = (l, Ok final) -> exists t, final = Str.trim t.
Proof.
  unfold reply.
  destruct (clientPromise e) as [[]|err]; simpl; [|discriminate].
  destruct (userFirstName (userName f)) as [firstName|err]; simpl;
    [|discriminate].
  destruct (ToString gt (prompt f)) as [text|err]; simpl; [|discriminate].
  destruct (GEMINI_API_KEY e) as [[|c k]|]; simpl; try discriminate.
  destruct (gemini e) as [reason|st txt parsed]; simpl; [discriminate|].
  destruct (http_ok st); simpl; [|discriminate].
  destruct parsed as [j|]; simpl; [|discriminate].
  destruct (extract gt (Some j)) as [l' [raw|err]]; simpl; [|discriminate].
  unfold postprocess.
  destruct (prop Length raw) as [len|]; simpl; [|discriminate].
  destruct (JS.gt0 gt len) as [b|]; simpl; [|discriminate].
  destruct (b && strict_eq_string (outputLanguage f) "en-US").
  - destruct raw as [[| | |s| |]|]; simpl; try discriminate.
    intros [= _ <-]. eauto.
  - simpl. destruct raw as [[| | |s| |]|]; simpl; try discriminate.
    intros [= _ <-]. eauto.
Qed.

(** Every request falls in one of four cases. *)
Lemma handler_cases e req :
  (String.eqb (method req) "POST" = false /\
   handler gt e req = ([], Ok (respond 405 "Method Not Allowed"))) \/
  (String.eqb (method req) "POST" = true /\ nullish (body req) = true /\
   handler gt e req = ([], Throw TypeError)) \/
  (String.eqb (method req) "POST" = true /\
   exists f, destructure (body req) = Ok f /\ truthy (prompt f) = false /\
             handler gt e req = ([], Ok (respond 400 "Prompt is required"))) \/
  (String.eqb (method req) "POST" = true /\
   exists f, destructure (body req) = Ok f /\ truthy (prompt f) = true).
Proof.
  destruct (String.eqb (method req) "POST") eqn:Hm.
  - right.
    destruct (destructure (body req)) as [f|err] eqn:Hd.
    + right. destruct (truthy (prompt f)) eqn:Ht.
      * right. split; [reflexivity|]. exists f. split; auto.
      * left. split; [reflexivity|]. exists f.
        split; [auto|]. split; [auto|].
        now rewrite (handler_post gt e req f Hm Hd), Ht.
    + left. split; [reflexivity|].
      assert (Hn : nullish (body req) = true /\ err = TypeError).
      { destruct (body req) as [[]|]; simpl in Hd; try discriminate;
          injection Hd as <-; auto. }
      destruct Hn as [Hn ->]. split; [exact Hn|].
      unfold handler. rewrite Hm, Hd. reflexivity.
  - left. split; [reflexivity|]. now apply handler_not_post.
Qed.

End WithCoercion.

(** X1.  Whatever the collaborators do, the handler answers every request
    with status 200, 400, 405 or 500, except a POST whose body is undefined
    or null: destructuring it throws a TypeError before the try block, which
    escapes the handler, and nothing else has happened by then. *)
Theorem handler_answers_unless_body_is_nullish gt e req :
  if String.eqb (method req) "POST" && nullish (body req) then
    handler gt e req = ([], Throw TypeError)
  else
    exists r, snd (handler gt e req) = Ok r /\
              In (status r) [200; 400; 405; 500].
Proof.
  destruct (handler_cases gt e req)
    as [[Hm H]|[(Hm & Hn & H)|[(Hm & f & Hd & Ht & H)|(Hm & f & Hd & Ht)]]];
    rewrite Hm; simpl.
  - rewrite H. eexists. split; [reflexivity|]. simpl. tauto.
  - now rewrite Hn.
  - destruct (nullish (body req)) eqn:Hn.
    + destruct (body req) as [[]|]; discriminate.
    + rewrite H. eexists. split; [reflexivity|]. simpl. tauto.
  - destruct (nullish (body req)) eqn:Hn.
    + destruct (body req) as [[]|]; discriminate.
    + rewrite (handler_accepted gt e req f Hm Hd Ht).
      destruct (reply gt e f) as [l [final|err]];
        [destruct (insertOne e)|]; eexists; (split; [reflexivity|]);
        simpl; tauto.
Qed.

(** X2.  When the write to the collection succeeds, a document has been
    written exactly when the answer is 200: the answer then carries no error
    field, and the one document written holds the fields destructured from
    the body and, as aiResponse, the message of the answer.  For any other
    answer, and when an exception escapes, nothing has been written. *)
Theorem written_exactly_when_answered_200 gt e req :
  insertOne e = Ok tt ->
  match snd (handler gt e req) with
  | Ok r =>
      if Nat.eqb (status r) 200 then
        exists f, destructure (body req) = Ok f /\
                  r = respond 200 (message r) /\
                  writes (fst (handler gt e req))
                    = [record_of e f (message r)]
      else writes (fst (handler gt e req)) = []
  | Throw _ => writes (fst (handler gt e req)) = []
  end.
Proof.
  intros Hi.
  destruct (handler_cases gt e req)
    as [[Hm H]|[(Hm & Hn & H)|[(Hm & f & Hd & Ht & H)|(Hm & f & Hd & Ht)]]];
    try (rewrite H; reflexivity).
  rewrite (handler_accepted gt e req f Hm Hd Ht), Hi.
  destruct (reply_effects gt e f) as [Hw _].
  destruct (reply gt e f) as [l [final|err]]; simpl in *.
  - exists f. split; [exact Hd|]. split; [reflexivity|].
    now rewrite writes_app, Hw.
  - now rewrite writes_app, Hw.
Qed.

Lemma written_exactly_when_answered_200_witness :
  writes (fst (handler no_coercion
                 (sample_env (sample_reply (JObj [("text", JStr "get up.")]))
                             (Ok tt))
                 (sample_request interview)))
  = [ {| doc_userId := Some (JStr "u1");
         doc_userName := Some (JStr "Ada Lovelace");
         doc_userPrompt := Some (JStr "I failed my interview");
         doc_aiResponse := "Get up.";
         doc_inputLanguage := Some (JStr "en-US");
         doc_outputLanguage := Some (JStr "en-US");
         doc_timestamp := 0%Z |} ].
Proof.
  pose proof (written_exactly_when_answered_200 no_coercion
                (sample_env (sample_reply (JObj [("text", JStr "get up.")]))
                            (Ok tt))
                (sample_request interview) eq_refl) as H.
  vm_compute in H. destruct H as (f & Hd & _ & Hw).
  injection Hd as <-. exact Hw.
Defined.

(** X3.  A request makes at most one call to the generation backend and at
    most one write to the collection, and no write without a call.  The
    aiResponse of a written document has been trimmed: trimming it again
    changes nothing, and it neither starts nor ends with white space (its
    first and last bytes are no white space, and no beginning and no ending
    of it is made of white space characters). *)
Theorem at_most_one_write_and_it_is_trimmed gt e req :
  List.length (writes (fst (handler gt e req))) <= 1 /\
  List.length (calls (fst (handler gt e req))) <= 1 /\
  (writes (fst (handler gt e req)) <> [] ->
   calls (fst (handler gt e req)) <> []) /\
  forall doc, In doc (writes (fst (handler gt e req))) ->
    Str.trim (doc_aiResponse doc) = doc_aiResponse doc /\
    (forall c, Str.first_char (doc_aiResponse doc) = Some c ->
               Str.is_ws c = false) /\
    (forall c, Str.last_char (doc_aiResponse doc) = Some c ->
               Str.is_ws c = false) /\
    (forall a b, doc_aiResponse doc = a ++ b -> a <> "" ->
                 Str.blank a = false) /\
    (forall a b, doc_aiResponse doc = a ++ b -> b <> "" ->
                 Str.blank b = false).
Proof.
  destruct (handler_cases gt e req)
    as [[Hm H]|[(Hm & Hn & H)|[(Hm & f & Hd & Ht & H)|(Hm & f & Hd & Ht)]]];
    try (rewrite H; simpl; repeat split; try lia; try tauto; congruence).
  rewrite (handler_accepted gt e req f Hm Hd Ht).
  destruct (reply_effects gt e f) as [Hw Hc].
  destruct (reply gt e f) as [l [final|err]] eqn:Hr; simpl in *.
  - assert (Hcalls : calls l <> [] /\ List.length (calls l) <= 1).
    { destruct Hc as [Hc|(n & t & _ & _ & Hc)].
      - exfalso. revert Hr Hc. clear. unfold reply.
        destruct (clientPromise e) as [[]|?]; simpl; [|discriminate].
        destruct (userFirstName (userName f)); simpl; [|discriminate].
        destruct (ToString gt (prompt f)); simpl; [|discriminate].
        destruct (GEMINI_API_KEY e) as [[|? ?]|]; simpl; try discriminate.
        destruct (gemini e); simpl; [discriminate|].
        destruct (http_ok _); simpl; [|discriminate].
        destruct parsed; simpl; [|discriminate].
        destruct (extract gt (Some j)) as [? [?|?]]; simpl; [|discriminate].
        destruct (postprocess _ _ _); simpl; [|discriminate].
        intros [= <- _]. discriminate.
      - rewrite Hc. split; [discriminate|simpl; lia]. }
    destruct (reply_trimmed gt e f l final Hr) as [t ->].
    assert (Hdoc : forall doc,
               In doc (writes (l ++ [InsertOne (record_of e f (Str.trim t))])) ->
               doc = record_of e f (Str.trim t)).
    { intros doc. rewrite writes_app, Hw. simpl. intros [<-|[]]. reflexivity. }
    destruct (insertOne e) as [[]|err]; simpl;
      rewrite !writes_app, !calls_app, Hw; simpl; rewrite app_nil_r;
      (split; [lia|]); (split; [tauto|]); (split; [tauto|]);
      intros doc [<-|[]]; simpl;
      (split; [apply StrFacts.trim_idempotent|]);
      (split; [apply StrFacts.trim_first|]);
      (split; [apply StrFacts.trim_last|]);
      (split; intros a b;
       [apply StrFacts.trim_no_blank_prefix
       |apply StrFacts.trim_no_blank_suffix]).
  - rewrite writes_app, calls_app, Hw. simpl. rewrite app_nil_r.
    split; [lia|]. split.
    + destruct Hc as [->|(n & t & _ & _ & ->)]; simpl; lia.
    + split; [congruence|]. intros doc [].
Qed.


(** X4.  When the database connection fails, or GEMINI_API_KEY is unset or
    empty, the generation backend is not called, nothing is written, and the
    answer is not 200. *)
Theorem no_backend_call_without_database_or_key gt e req :
  (exists err, clientPromise e = Throw err) \/
  GEMINI_API_KEY e = None \/ GEMINI_API_KEY e = Some "" ->
  calls (fst (handler gt e req)) = [] /\
  writes (fst (handler gt e req)) = [] /\
  forall r, snd (handler gt e req) = Ok r -> status r <> 200.
Proof.
  intros Hbad.
  destruct (handler_cases gt e req)
    as [[Hm H]|[(Hm & Hn & H)|[(Hm & f & Hd & Ht & H)|(Hm & f & Hd & Ht)]]];
    try (rewrite H; simpl; repeat split; try discriminate;
         intros r [= <-]; discriminate).
  rewrite (handler_accepted gt e req f Hm Hd Ht).
  assert (Hr : exists err, reply gt e f = ([], Throw err)).
  { unfold reply. destruct Hbad as [[err ->]|Hk]; simpl; [eauto|].
    destruct (clientPromise e) as [[]|err]; simpl; [|eauto].
    destruct (userFirstName (userName f)); simpl; [|eauto].
    destruct (ToString gt (prompt f)); simpl; [|eauto].
    destruct Hk as [-> | ->]; simpl; eauto. }
  destruct Hr as [err ->]. simpl.
  repeat split. intros r [= <-]. discriminate.
Qed.

Lemma no_backend_call_without_database_or_key_witness :
  calls (fst (handler no_coercion
                {| clientPromise := Ok tt; GEMINI_API_KEY := None;
                   gemini := HttpResponse 200 "" (Some JNull);
                   insertOne := Ok tt; now := 0%Z |}
                (sample_request interview))) = [].
Proof.
  apply (no_backend_call_without_database_or_key no_coercion
           {| clientPromise := Ok tt; GEMINI_API_KEY := None;
              gemini := HttpResponse 200 "" (Some JNull);
              insertOne := Ok tt; now := 0%Z |}
           (sample_request interview)).
  right. left. reflexivity.
Defined.

(** X5.  When the call to the generation backend fails (the request is
    rejected, the status is outside 200-299, or the body is not JSON),
    nothing is written to the collection and the answer is not 200. *)
Theorem backend_failure_writes_nothing gt e req :
  (exists reason, gemini e = NetworkFailure reason) \/
  (exists st text parsed, gemini e = HttpResponse st text parsed /\
                          (http_ok st = false \/ parsed = None)) ->
  writes (fst (handler gt e req)) = [] /\
  forall r, snd (handler gt e req) = Ok r -> status r <> 200.
Proof.
  intros Hbad.
  destruct (handler_cases gt e req)
    as [[Hm H]|[(Hm & Hn & H)|[(Hm & f & Hd & Ht & H)|(Hm & f & Hd & Ht)]]];
    try (rewrite H; simpl; repeat split; try discriminate;
         intros r [= <-]; discriminate).
  rewrite (handler_accepted gt e req f Hm Hd Ht).
  destruct (reply_effects gt e f) as [Hw _].
  assert (Hr : exists err, snd (reply gt e f) = Throw err).
  { unfold reply.
    destruct (clientPromise e) as [[]|err]; simpl; [|eauto].
    destruct (userFirstName (userName f)); simpl; [|eauto].
    destruct (ToString gt (prompt f)); simpl; [|eauto].
    destruct (GEMINI_API_KEY e) as [[|c k]|]; simpl; eauto.
    destruct Hbad as [[reason ->]|(st & text & parsed & -> & H)]; simpl;
      [eauto|].
    destruct H as [-> | ->]; simpl; [eauto|].
    destruct (http_ok st); simpl; eauto. }
  destruct Hr as [err Hr].
  destruct (reply gt e f) as [l r]. simpl in *. subst r.
  simpl. rewrite writes_app, Hw. simpl.
  split; [reflexivity|]. intros r [= <-]. discriminate.
Qed.

Lemma backend_failure_writes_nothing_witness :
  writes (fst (handler no_coercion
                 {| clientPromise := Ok tt; GEMINI_API_KEY := Some "key";
                    gemini := HttpResponse 503 "overloaded" None;
                    insertOne := Ok tt; now := 0%Z |}
                 (sample_request interview))) = [].
Proof.
  apply (backend_failure_writes_nothing no_coercion
           {| clientPromise := Ok tt; GEMINI_API_KEY := Some "key";
              gemini := HttpResponse 503 "overloaded" None;
              insertOne := Ok tt; now := 0%Z |}
           (sample_request interview)).
  right. exists 503, "overloaded", None. split; [reflexivity|].
  left. reflexivity.
Defined.

(** X6.  For an output language other than en-US, a request that gets as
    far as the backend's reply is answered with the first candidate's text
    trimmed, and not capitalised: the message is what is left of the text
    between two runs of white space, and no beginning and no ending of it
    is made of white space.  White space is that of JavaScript, the
    no-break space and the byte order mark included. *)
Theorem other_languages_are_trimmed_only
    gt e req f result firstName text s :
  String.eqb (method req) "POST" = true ->
  destructure (body req) = Ok f ->
  truthy (prompt f) = true ->
  answered e result ->
  userFirstName (userName f) = Ok firstName ->
  ToString gt (prompt f) = Ok text ->
  insertOne e = Ok tt ->
  strict_eq_string (outputLanguage f) "en-US" = false ->
  has_text gt (Some result) = Ok true ->
  path text_path (Some result) = Ok (Some (JStr s)) ->
  snd (handler gt e req) = Ok (respond 200 (Str.trim s)) /\
  (exists pre post,
     s = pre ++ Str.trim s ++ post /\
     Str.blank pre = true /\ Str.blank post = true) /\
  (forall a b, Str.trim s = a ++ b -> a <> "" -> Str.blank a = false) /\
  (forall a b, Str.trim s = a ++ b -> b <> "" -> Str.blank b = false) /\
  (s = blanks ++ "uth ani parat prayatna kar." ++ blanks ->
   Str.trim s = "uth ani parat prayatna kar.") /\
  (s = not_blanks ++ "uth." ++ not_blanks -> Str.trim s = s).
Proof.
  intros Hm Hd Ht Ha Hn Hp Hi Hl Hh Hpath.
  split; [|split; [|split; [|split; [|split]]]].
  - eapply (MotivateClaims.handler_answered gt e req f result firstName text
              Hm Hd Ht Ha Hn Hp Hi).
    + apply extract_text; [exact Hh|exact Hpath].
    + now apply postprocess_string_other.
  - apply StrFacts.trim_split.
  - intros a b. apply StrFacts.trim_no_blank_prefix.
  - intros a b. apply StrFacts.trim_no_blank_suffix.
  - intros ->. vm_compute. reflexivity.
  - intros ->. vm_compute. reflexivity.
Qed.

Lemma other_languages_are_trimmed_only_witness :
  snd (handler no_coercion
         (sample_env
            (sample_reply
               (JObj [("text", JStr (nbsp ++ "uth ani parat prayatna kar. "))]))
            (Ok tt))
         (sample_request
            (Some (JObj [("prompt", JStr "I failed my interview");
                         ("outputLanguage", JStr "mr-IN")]))))
  = Ok (respond 200 "uth ani parat prayatna kar.").
Proof.
  apply (other_languages_are_trimmed_only no_coercion
           (sample_env
              (sample_reply
                 (JObj [("text",
                         JStr (nbsp ++ "uth ani parat prayatna kar. "))]))
              (Ok tt))
           (sample_request
              (Some (JObj [("prompt", JStr "I failed my interview");
                           ("outputLanguage", JStr "mr-IN")])))
           {| prompt := Some (JStr "I failed my interview");
              inputLanguage := None;
              outputLanguage := Some (JStr "mr-IN");
              userId := None; userName := None |}
           (sample_reply
              (JObj [("text", JStr (nbsp ++ "uth ani parat prayatna kar. "))]))
           "" "I failed my interview"
           (nbsp ++ "uth ani parat prayatna kar. ")
           eq_refl eq_refl eq_refl (MotivateClaims.sample_env_answered _ _)
           eq_refl eq_refl eq_refl eq_refl eq_refl eq_refl).
Defined.

(** X7.  When the first candidate has a content whose first part carries a
    text, the message extracted is that text, without a warning: the other
    candidates and the other parts play no role. *)
Theorem only_the_first_part_of_the_first_candidate_counts
    gt fs candidate others cfs part parts t :
  lookup "candidates" fs = Some (JArr (JObj candidate :: others)) ->
  lookup "content" candidate = Some (JObj cfs) ->
  lookup "parts" cfs = Some (JArr (JObj part :: parts)) ->
  lookup "text" part = Some (JStr t) ->
  well_formed (JObj fs) = true /\
  extract gt (Some (JObj fs)) = ([], Ok (Some (JStr t))).
Proof.
  intros Hc Hct Hp Ht. split.
  - simpl. now rewrite Hc, Hct, Hp, Ht.
  - unfold extract, has_text, and_then. cbn. rewrite Hc. cbn.
    rewrite Hct. cbn. rewrite Hp. cbn. rewrite Ht. reflexivity.
Qed.

Lemma only_the_first_part_of_the_first_candidate_counts_witness :
  extract no_coercion (Some (JObj two_candidates))
  = ([], Ok (Some (JStr "one"))).
Proof.
  apply (only_the_first_part_of_the_first_candidate_counts no_coercion
           two_candidates
           [("content",
             JObj [("parts", JArr [JObj [("text", JStr "one")];
                                   JObj [("text", JStr "two")]])])]
           [JObj [("content",
                   JObj [("parts", JArr [JObj [("text", JStr "three")]])])]]
           [("parts", JArr [JObj [("text", JStr "one")];
                            JObj [("text", JStr "two")]])]
           [("text", JStr "one")]
           [JObj [("text", JStr "two")]]
           "one" eq_refl eq_refl eq_refl eq_refl).
Defined.

End MotivateMore.

(* ===================================================================== *)
(** ** Further properties of the statistics handler *)
(* ===================================================================== *)

Module StatsMore.
Import JS Stats StatsSamples Observe.

Lemma length_nodup_le {A} (dec : forall a b : A, {a = b} + {a <> b}) l :
  List.length (nodup dec l) <= List.length l.
Proof.
  induction l as [|a l IH]; simpl; [lia|].
  destruct (in_dec dec a l); simpl; lia.
Qed.

Lemma nodup_nil {A} (dec : forall a b : A, {a = b} + {a <> b}) l :
  nodup dec l = [] -> l = [].
Proof.
  destruct l as [|a l]; [reflexivity|]. intros H. exfalso.
  assert (Hin : In a (nodup dec (a :: l))) by (apply nodup_In; now left).
  rewrite H in Hin. exact Hin.
Qed.

Lemma length_nodup_snoc {A} (dec : forall a b : A, {a = b} + {a <> b}) l x :
  List.length (nodup dec (l ++ [x]))
  = List.length (nodup dec l) + (if in_dec dec x l then 0 else 1).
Proof.
  induction l as [|a l IH].
  - cbn [app nodup]. destruct (in_dec dec x []) as [[]|_]. reflexivity.
  - cbn [app nodup].
    destruct (in_dec dec a (l ++ [x])) as [H1|H1];
      destruct (in_dec dec a l) as [H2|H2];
      destruct (in_dec dec x (a :: l)) as [H3|H3];
      destruct (in_dec dec x l) as [H4|H4];
      cbn [List.length]; rewrite ?IH;
      try lia; exfalso;
      try (apply in_app_or in H1; cbn [In] in H1);
      cbn [In] in *;
      try (apply H1; apply in_or_app; cbn [In]);
      intuition (subst; auto).
Qed.

(** A 200 answer carries the two counts, each of the collection as its
    query found it. *)
Lemma handler_between_200 e between m u q :
  snd (handler_between e between m)
    = {| status := 200; json := Counters u q |} ->
  u = List.length (distinct_userId (interactions e ++ between)%list) /\
  q = List.length (interactions e) /\
  clientPromise e = Ok tt /\ countDocuments_call e = Ok tt /\
  distinct_call e = Ok tt.
Proof.
  unfold handler_between.
  destruct (negb (String.eqb m "GET")); simpl; [discriminate|].
  unfold statistics_between, rbind.
  destruct (clientPromise e) as [[]|]; [|discriminate].
  destruct (countDocuments_call e) as [[]|]; [|discriminate].
  destruct (distinct_call e) as [[]|]; [|discriminate].
  intros [= <- <-]. auto.
Qed.

Lemma handler_between_nil e m : handler_between e [] m = handler e m.
Proof.
  unfold handler_between, handler, statistics_between, statistics.
  now rewrite app_nil_r.
Qed.

Lemma handler_200 e m u q :
  snd (handler e m) = {| status := 200; json := Counters u q |} ->
  u = List.length (distinct_userId (interactions e)) /\
  q = List.length (interactions e) /\
  clientPromise e = Ok tt /\ countDocuments_call e = Ok tt /\
  distinct_call e = Ok tt.
Proof.
  rewrite <- handler_between_nil. intros H.
  apply handler_between_200 in H. now rewrite app_nil_r in H.
Qed.

Lemma handler_ok e :
  clientPromise e = Ok tt -> countDocuments_call e = Ok tt ->
  distinct_call e = Ok tt ->
  handler e "GET"
  = ([], {| status := 200;
            json := Counters
                      (List.length (distinct_userId (interactions e)))
                      (List.length (interactions e)) |}).
Proof.
  intros H1 H2 H3. unfold handler, statistics. now rewrite H1, H2, H3.
Qed.

(** X8.  The statistics handler asks for the two numbers one after the
    other, and turns can be stored in between.  In a 200 answer the number
    of users is at most the number of turns counted plus the number of
    turns stored between the two queries; when none is stored in between,
    the number of users does not exceed the number of turns, and one is
    zero exactly when the other is.  (The userId of a document is a string
    or null.) *)
Theorem users_never_exceed_turns e between m u q :
  snd (handler_between e between m)
    = {| status := 200; json := Counters u q |} ->
  u <= q + List.length between /\
  (between = [] ->
   snd (handler e m) = {| status := 200; json := Counters u q |} /\
   u <= q /\ (u = 0 <-> q = 0)).
Proof.
  intros H. pose proof H as H'.
  apply handler_between_200 in H' as (-> & -> & _).
  unfold distinct_userId. split.
  - eapply Nat.le_trans; [apply length_nodup_le|].
    rewrite length_map, length_app. lia.
  - intros ->. rewrite handler_between_nil in H. split; [exact H|].
    rewrite app_nil_r. split.
    + eapply Nat.le_trans; [apply length_nodup_le|].
      now rewrite length_map.
    + split; intros H0.
      * apply length_zero_iff_nil in H0. apply nodup_nil in H0.
        apply map_eq_nil in H0. now rewrite H0.
      * apply length_zero_iff_nil in H0. now rewrite H0.
Qed.

Lemma users_never_exceed_turns_witness :
  snd (handler three_turns "GET")
    = {| status := 200; json := Counters 2 3 |} /\
  2 <= 3 /\ (2 = 0 <-> 3 = 0).
Proof.
  destruct (users_never_exceed_turns three_turns [] "GET" 2 3 eq_refl)
    as [_ H].
  exact (H eq_refl).
Defined.

(** A first turn stored between the two queries is not counted as a turn,
    but its user is counted: one user, no turn. *)
Example more_users_than_turns :
  snd (handler_between
         {| clientPromise := Ok tt; interactions := [];
            countDocuments_call := Ok tt; distinct_call := Ok tt |}
         [ {| userId := Some "u1" |} ] "GET")
  = {| status := 200; json := Counters 1 0 |}.
Proof. reflexivity. Qed.

(** X10.  When the connection, the count or the distinct query fails, a GET
    is answered 500 'Internal Server Error' with the message of the first
    step that failed, and that error is logged; the later steps play no
    role. *)
Theorem statistics_failure_is_reported e err :
  clientPromise e = Throw err \/
  (clientPromise e = Ok tt /\ countDocuments_call e = Throw err) \/
  (clientPromise e = Ok tt /\ countDocuments_call e = Ok tt /\
   distinct_call e = Throw err) ->
  handler e "GET"
  = ([ConsoleError "Error fetching statistics:" err],
     {| status := 500;
        json := Message "Internal Server Error"
                        (Some (Motivate.errorMessage err)) |}).
Proof.
  unfold handler, statistics, rbind. simpl.
  intros [-> | [[-> ->] | (-> & -> & ->)]]; reflexivity.
Qed.

Lemma statistics_failure_is_reported_witness :
  handler {| clientPromise := Ok tt; interactions := [];
             countDocuments_call := Throw (Failure "timed out");
             distinct_call := Throw (Failure "not reached") |} "GET"
  = ([ConsoleError "Error fetching statistics:" (Failure "timed out")],
     {| status := 500;
        json := Message "Internal Server Error"
                        (Some (Motivate.Text "timed out")) |}).
Proof.
  apply (statistics_failure_is_reported
           {| clientPromise := Ok tt; interactions := [];
              countDocuments_call := Throw (Failure "timed out");
              distinct_call := Throw (Failure "not reached") |}
           (Failure "timed out")).
  right. left. split; reflexivity.
Defined.

End StatsMore.

(* ===================================================================== *)
(** ** Further properties of the typing animation *)
(* ===================================================================== *)

Module RevealMore.
Import Reveal RevealStates RevealClaims.

Lemma ticks_typing_partial s :
  forall k j t, j + k <= String.length s ->
    ticks k (typing s j t) = typing s (j + k) (t + 50 * k).
Proof.
  induction k as [|k IH]; intros j t H; cbn [ticks].
  - now rewrite Nat.mul_0_r, !Nat.add_0_r.
  - rewrite tick_typing by lia. rewrite IH by lia.
    replace (S j + k) with (j + S k) by lia.
    replace (t + 50 + 50 * k) with (t + 50 * S k) by lia.
    reflexivity.
Qed.

Lemma length_substring_tail c r j :
  String.length (substring 1 j (String c r)) = Nat.min j (String.length r).
Proof.
  simpl. revert j.
  induction r as [|d r IH]; intros [|j]; simpl; try reflexivity.
  now rewrite IH.
Qed.

Lemma tick_keeps st :
  pending st = [] ->
  pending (tick st) = [] /\ aiResponse (tick st) = aiResponse st.
Proof.
  intros Hp. unfold tick. destruct (typingTimeout st); [|auto].
  unfold typeText, render. simpl.
  destruct (i st <? String.length (aiResponse st)); simpl; auto.
Qed.

Lemma ticks_keep k : forall st,
  pending st = [] ->
  pending (ticks k st) = [] /\ aiResponse (ticks k st) = aiResponse st.
Proof.
  induction k as [|k IH]; intros st Hp; simpl; [auto|].
  destruct (tick_keeps st Hp) as [H1 H2].
  destruct (IH (tick st) H1) as [H3 H4]. split; congruence.
Qed.

Lemma ticks_add a b st : ticks (a + b) st = ticks b (ticks a st).
Proof. revert st. induction a as [|a IH]; intros st; simpl; auto. Qed.

Lemma reveal_shape st c r k :
  pending st = [] ->
  aiResponse st <> String c r ->
  displayedAiResponse (ticks k (setAiResponse (String c r) st))
  = substring 0 (S k) r.
Proof.
  intros Hp Hne.
  rewrite (setAiResponse_typing st c r Hp Hne).
  destruct (Nat.le_gt_cases k (String.length r)) as [Hk|Hk].
  - rewrite ticks_typing_partial by (simpl; lia).
    unfold typing. cbn [displayedAiResponse].
    replace (1 + k) with (S k) by lia. reflexivity.
  - rewrite (ticks_typing (String c r));
      [|discriminate|lia|simpl; lia|simpl; lia].
    unfold typed. cbn [displayedAiResponse Str.slice1].
    now rewrite (substring_all r (S k)) by lia.
Qed.

(** X11.  While a new non-empty text [c r] is being typed over a displayed
    text, the display after [k] timeouts is the first [k + 1] characters of
    [r] (all of [r] when it is shorter): the displayed length grows by one
    per timeout and never shrinks.  Up to the timeout that completes [r],
    fifty time units pass per timeout and a timeout is pending. *)
Theorem reveal_grows_by_one_character_per_timeout
    (st : state) (c : ascii) (r : string) (k : nat) :
  pending st = [] ->
  displayedAiResponse st <> "" ->
  aiResponse st <> String c r ->
  let shown := ticks k (setAiResponse (String c r) st) in
  displayedAiResponse shown = substring 0 (S k) r /\
  revealedLength shown = Nat.min (S k) (String.length r) /\
  (k <= String.length r ->
   elapsed shown = elapsed st + 50 * k /\ typingTimeout shown = true).
Proof.
  intros Hp _ Hne shown. subst shown.
  rewrite (setAiResponse_typing st c r Hp Hne).
  destruct (Nat.le_gt_cases k (String.length r)) as [Hk|Hk].
  - rewrite ticks_typing_partial by (simpl; lia).
    unfold typing, revealedLength. cbn [displayedAiResponse elapsed typingTimeout].
    replace (1 + k) with (S k) by lia.
    split; [reflexivity|]. split; [|auto].
    apply (length_substring_tail c r (S k)).
  - rewrite (ticks_typing (String c r)); [|discriminate|lia|simpl; lia|simpl; lia].
    unfold typed, revealedLength. cbn [displayedAiResponse Str.slice1].
    rewrite (substring_all r (S k)) by lia.
    split; [reflexivity|]. split; [lia|]. intros; lia.
Qed.

Lemma reveal_grows_by_one_character_per_timeout_witness :
  displayedAiResponse (ticks 5 (setAiResponse "Get up and try again." greeted))
  = "et up ".
Proof.
  apply (reveal_grows_by_one_character_per_timeout greeted "G"
           "et up and try again." 5);
    [vm_compute; reflexivity | vm_compute; discriminate
     | vm_compute; discriminate].
Defined.

(** X12.  A new text that arrives while another one is being typed cancels
    that animation: whatever the number of timeouts that had fired, the
    display ends as the new text without its first character, with nothing
    of the old text left, no timeout pending, and as many timeouts spent on
    it as it has characters. *)
Theorem new_text_cancels_the_reveal_in_progress
    (st : state) (c1 c2 d1 : ascii) (r1 r2 : string) (k n : nat) :
  pending st = [] ->
  displayedAiResponse st <> "" ->
  aiResponse st <> String c1 (String d1 r1) ->
  String c2 r2 <> String c1 (String d1 r1) ->
  String.length (String c2 r2) <= n ->
  let interrupted := ticks k (setAiResponse (String c1 (String d1 r1)) st) in
  let final := ticks n (setAiResponse (String c2 r2) interrupted) in
  displayedAiResponse interrupted <> "" /\
  displayedAiResponse final = r2 /\
  typingTimeout final = false /\
  elapsed final = elapsed interrupted + 50 * String.length (String c2 r2).
Proof.
  intros Hp Hd Hne Hne2 Hn interrupted final.
  assert (Hshown : displayedAiResponse interrupted
                   = substring 0 (S k) (String d1 r1)).
  { apply (reveal_shape st c1 (String d1 r1) k Hp Hne). }
  destruct (ticks_keep k (setAiResponse (String c1 (String d1 r1)) st))
    as [Hp' Ha'].
  { rewrite (setAiResponse_typing st c1 _ Hp Hne). reflexivity. }
  fold interrupted in Hp', Ha'.
  assert (Ha : aiResponse interrupted = String c1 (String d1 r1)).
  { rewrite Ha'. now rewrite (setAiResponse_typing st c1 _ Hp Hne). }
  split; [rewrite Hshown; discriminate|].
  subst final.
  rewrite (setAiResponse_typing interrupted c2 r2 Hp');
    [|rewrite Ha; congruence].
  simpl in Hn.
  rewrite (ticks_typing (String c2 r2));
    [|discriminate|lia|simpl; lia|simpl; lia].
  unfold typed. simpl. repeat split. lia.
Qed.

Lemma new_text_cancels_the_reveal_in_progress_witness :
  displayedAiResponse
    (ticks 30 (setAiResponse "Get up."
                 (ticks 3 (setAiResponse "Thinking..." greeted))))
  = "et up.".
Proof.
  apply (new_text_cancels_the_reveal_in_progress greeted "T" "G" "h"
           "inking..." "et up." 3 30);
    [vm_compute; reflexivity | vm_compute; discriminate
     | vm_compute; discriminate | discriminate | simpl; lia].
Defined.

(** X13.  The empty text stops the animation but does not clear the display:
    the text displayed before stays, however long one waits. *)
Theorem empty_text_leaves_the_old_text_displayed
    (st : state) (n : nat) :
  pending st = [] ->
  aiResponse st <> "" ->
  let after := ticks n (setAiResponse "" st) in
  displayedAiResponse after = displayedAiResponse st /\
  typingTimeout after = false /\
  elapsed after = elapsed st.
Proof.
  intros Hp Hne after. subst after.
  assert (H : setAiResponse "" st
              = {| aiResponse := ""; displayedAiResponse := displayedAiResponse st;
                   i := i st; typingTimeout := false; pending := [];
                   elapsed := elapsed st |}).
  { unfold setAiResponse.
    destruct (String.eqb "" (aiResponse st)) eqn:He.
    - apply String.eqb_eq in He. congruence.
    - unfold effect, render. simpl. now rewrite Hp. }
  rewrite H. clear H.
  induction n as [|n IH]; simpl; auto.
Qed.

Lemma empty_text_leaves_the_old_text_displayed_witness :
  displayedAiResponse (ticks 4 (setAiResponse "" greeted))
  = "Hello! how can i funk your mental health today?".
Proof.
  apply (empty_text_leaves_the_old_text_displayed greeted 4);
    [vm_compute; reflexivity | vm_compute; discriminate].
Defined.

End RevealMore.

(* ===================================================================== *)
(** ** Further properties of the page's events *)
(* ===================================================================== *)

Module OrchestratorMore.
Import Orchestrator OrchestratorFacts OrchestratorSamples TurnInvariant.

Lemma turn_inv_initial synthesis capture vs uri language :
  turn_inv (initial synthesis capture vs uri language).
Proof. constructor; simpl; try discriminate; try lia; auto. Qed.

Lemma turn_inv_step s e s' :
  turn_inv s -> step s e = Some s' -> turn_inv s'.
Proof.
  intros [T1 T2 T3 T4 T5] Hstep.
  unfold step in Hstep.
  destruct (enabled s e) eqn:Hen; [|discriminate].
  injection Hstep as <-.
  destruct s as [li ut ar sp lo vs uri la tu tq rr sr rc spk qu ca ge rf fs].
  destruct e; cbn in *; flags;
    unfold toggleListening, stopSpeaking, response_failed, speakText,
           getAiMotivationalResponse, cancel; cbn;
    split_cases; cbn in *; subst;
    (constructor; cbn; intros; try close).
  all: flags; forward; subst;
    first [ f_equal; lia
          | symmetry; apply Nat.eqb_eq; lia
          | symmetry; apply Nat.eqb_neq; lia ].
Qed.


Lemma turn_inv_run trace :
  forall s s', turn_inv s -> run s trace = Some s' -> turn_inv s'.
Proof.
  induction trace as [|e rest IH]; simpl; intros s s' Hi Hr.
  - now injection Hr as <-.
  - destruct (step s e) as [s1|] eqn:Hstep; [|discriminate].
    exact (IH s1 s' (turn_inv_step s e s1 Hi Hstep) Hr).
Qed.

(** No handler touches the refs. *)
Lemma refs_step s e s' :
  step s e = Some s' ->
  recognitionRef s' = recognitionRef s /\ synthRef s' = synthRef s.
Proof.
  unfold step. destruct (enabled s e); [|discriminate].
  intros [= <-].
  destruct s as [li ut ar sp lo vs uri la tu tq rr sr rc spk qu ca ge rf fs].
  destruct e; cbn;
    unfold toggleListening, stopSpeaking, response_failed, speakText,
           getAiMotivationalResponse, cancel; cbn;
    split_cases; cbn; auto.
Qed.

Lemma refs_run trace :
  forall s s', run s trace = Some s' ->
               recognitionRef s' = recognitionRef s /\ synthRef s' = synthRef s.
Proof.
  induction trace as [|e rest IH]; simpl; intros s s' Hr.
  - now injection Hr as <-.
  - destruct (step s e) as [s1|] eqn:Hstep; [|discriminate].
    destruct (refs_step s e s1 Hstep) as [H1 H2].
    destruct (IH s1 s' Hr) as [H3 H4]. split; congruence.
Qed.



(** X15.  On a browser without speech recognition (or without speech
    synthesis) the page never listens, never loads and never sends a
    generation request, whatever the events; a click on the microphone shows
    'Speech recognition not initialized.'. *)
Theorem without_recognition_the_page_never_listens
    (synthesis capture : bool) (vs : list voice) (uri language : string)
    (trace : list event) (s : state) :
  synthesis && capture = false ->
  run (initial synthesis capture vs uri language) trace = Some s ->
  listening s = false /\ isLoading s = false /\
  generation s = 0 /\ refresh s = 0 /\ recognition s = Inactive /\
  aiResponse (toggleListening s) = "Speech recognition not initialized.".
Proof.
  intros Hsup Hr.
  destruct (turn_inv_run trace _ s (turn_inv_initial _ _ _ _ _) Hr)
    as [T1 T2 T3 T4 T5].
  destruct (refs_run trace _ s Hr) as [Hrr _]. simpl in Hrr.
  rewrite Hsup in Hrr.
  destruct (T5 Hrr) as (Hl & Hrec & H0).
  split; [exact Hl|]. split; [now rewrite T1, H0|].
  split; [lia|]. split; [lia|]. split; [exact Hrec|].
  unfold toggleListening. rewrite Hrr. simpl.
  unfold speakText. destruct (synthRef _); [|reflexivity].
  simpl. destruct (is_some _); reflexivity.
Qed.

Lemma without_recognition_the_page_never_listens_witness :
  exists s, run (initial true false [] "" "en-US")
                [ClickMicrophone; UtteranceStart; ClickMicrophone] = Some s /\
            listening s = false /\ generation s = 0.
Proof.
  eexists. split; [vm_compute; reflexivity|].
  split;
    apply (without_recognition_the_page_never_listens true false [] "" "en-US"
             [ClickMicrophone; UtteranceStart; ClickMicrophone]);
    vm_compute; reflexivity.
Defined.


(** X24.  When an utterance is being spoken, [stopSpeaking] silences it and
    drops the utterances queued behind it: the speaking flag is cleared, no
    utterance can start or end any more, each utterance removed will still
    report its cancellation, and capture, loading and the displayed text
    are left alone. *)
Theorem stop_silences_what_is_spoken_and_queued (s : state) (u : utterance) :
  synthRef s = true ->
  spoken s = Some u ->
  let s' := stopSpeaking s in
  isSpeaking s' = false /\ spoken s' = None /\ queued s' = [] /\
  enabled s' UtteranceStart = false /\
  enabled s' UtteranceEnd = false /\
  cancelled s' = cancelled s + 1 + List.length (queued s) /\
  listening s' = listening s /\ isLoading s' = isLoading s /\
  aiResponse s' = aiResponse s.
Proof.
  intros Hs Hu s'. subst s'. unfold stopSpeaking. rewrite Hs, Hu.
  destruct s as [li ut ar sp lo vs uri la tu tq rr sr rc spk qu ca ge rf fs].
  simpl in *. subst spk. unfold cancel. cbn. repeat split.
Qed.

Lemma stop_silences_what_is_spoken_and_queued_witness :
  exists s, run page [ClickMicrophone; RecognitionResult "hi"; RecognitionEnd;
                      GenerationOk "Get up."; UtteranceStart; RefreshOk 1 1]
            = Some s /\
            isSpeaking s = true /\ isSpeaking (stopSpeaking s) = false.
Proof.
  eexists. split; [vm_compute; reflexivity|]. split; [reflexivity|].
  eapply stop_silences_what_is_spoken_and_queued; vm_compute; reflexivity.
Defined.

End OrchestratorMore.

(* ===================================================================== *)
(** ** Properties of the voice list, the selections and the session *)
(* ===================================================================== *)

Module PageMore.
Import Orchestrator Page Spec VoiceClaims ExtraSamples.

Lemma find_some_in {A} (P : A -> bool) l x :
  find P l = Some x -> In x l /\ P x = true.
Proof. apply find_some. Qed.

Lemma find_exists {A} (P : A -> bool) l :
  existsb P l = true -> exists x, find P l = Some x.
Proof.
  induction l as [|a l IH]; simpl; [discriminate|].
  destruct (P a); [eauto|]. exact IH.
Qed.

(** What [defaultVoice] picks. *)
Lemma defaultVoice_spec avail language :
  avail <> [] ->
  exists v,
    defaultVoice avail language = Some v /\ In v avail /\
    (existsb (fun w => String.eqb (lang w) language) avail = true ->
     lang v = language) /\
    (existsb (fun w => String.eqb (lang w) language
                       && includes "Google" (name w)) avail = true ->
     lang v = language /\ includes "Google" (name v) = true).
Proof.
  intros Hne. unfold defaultVoice.
  destruct (find (fun v => String.eqb (lang v) language
                           && includes "Google" (name v)) avail)
    as [v|] eqn:Hg.
  - destruct (find_some_in _ _ _ Hg) as [Hin Hp].
    apply andb_true_iff in Hp as [Hl Hn]. apply String.eqb_eq in Hl.
    exists v. repeat split; auto.
  - destruct (find (fun v => String.eqb (lang v) language) avail)
      as [v|] eqn:Hl.
    + destruct (find_some_in _ _ _ Hl) as [Hin Hp].
      apply String.eqb_eq in Hp.
      exists v. split; [reflexivity|]. split; [exact Hin|].
      split; [auto|]. intros Hex.
      destruct (find_exists _ _ Hex) as [x Hx]. congruence.
    + destruct avail as [|v rest]; [congruence|].
      exists v. split; [reflexivity|]. split; [now left|].
      split; intros Hex; destruct (find_exists _ _ Hex) as [x Hx]; congruence.
Qed.

(** X16.  [populateVoiceList] stores the enumerated voices and leaves the
    language alone.  A voice already selected is kept.  With no voice
    selected and a non-empty enumeration it selects an enumerated voice: one
    of the selected language when there is one, and a Google voice of that
    language when there is one; with an empty enumeration the selection
    stays empty. *)
Theorem populateVoiceList_keeps_a_selection_and_fills_an_empty_one
    (avail : list voice) (s : state) :
  synthRef s = true ->
  let s' := populateVoiceList avail s in
  voices s' = avail /\
  selectedLanguage s' = selectedLanguage s /\
  (if String.eqb (selectedVoiceURI s) "" then
     match avail with
     | [] => selectedVoiceURI s' = ""
     | _ =>
         exists v,
           In v avail /\ selectedVoiceURI s' = voiceURI v /\
           defaultVoice avail (selectedLanguage s) = Some v /\
           (existsb (fun w => String.eqb (lang w) (selectedLanguage s)) avail
              = true -> lang v = selectedLanguage s) /\
           (existsb (fun w => String.eqb (lang w) (selectedLanguage s)
                              && includes "Google" (name w)) avail = true ->
            lang v = selectedLanguage s /\ includes "Google" (name v) = true)
     end
   else selectedVoiceURI s' = selectedVoiceURI s).
Proof.
  intros Hs s'. subst s'. unfold populateVoiceList. rewrite Hs.
  destruct (String.eqb (selectedVoiceURI s) "") eqn:He; simpl.
  - destruct avail as [|a rest]; simpl.
    + apply String.eqb_eq in He. auto.
    + destruct (defaultVoice_spec (a :: rest) (selectedLanguage s))
        as (v & Hd & Hin & H1 & H2); [discriminate|].
      rewrite Hd. simpl. repeat split; auto.
      exists v. repeat split; auto; try (apply H1; assumption);
        apply H2; assumption.
  - auto.
Qed.

Lemma populateVoiceList_keeps_a_selection_and_fills_an_empty_one_witness :
  selectedVoiceURI
    (populateVoiceList [plain_mr; plain_en; google_en]
       (initial true true [] "" "en-US"))
  = "Google US English".
Proof.
  destruct (populateVoiceList_keeps_a_selection_and_fills_an_empty_one
              [plain_mr; plain_en; google_en]
              (initial true true [] "" "en-US") eq_refl)
    as (_ & _ & v & _ & Huri & Hd & _).
  rewrite Huri. vm_compute in Hd. now injection Hd as <-.
Defined.

Lemma find_unique_uri l v :
  NoDup (map voiceURI l) -> In v l ->
  find (fun w => String.eqb (voiceURI w) (voiceURI v)) l = Some v.
Proof.
  induction l as [|a l IH]; simpl; [tauto|].
  intros Hnd [->|Hin].
  - now rewrite String.eqb_refl.
  - inversion Hnd as [|? ? Hna Hnd']; subst.
    destruct (String.eqb (voiceURI a) (voiceURI v)) eqn:He.
    + apply String.eqb_eq in He. exfalso. apply Hna. rewrite He.
      now apply in_map.
    + now apply IH.
Qed.

Lemma populate_empty_selection avail s :
  synthRef s = true -> selectedVoiceURI s = "" -> avail <> [] ->
  exists v,
    defaultVoice avail (selectedLanguage s) = Some v /\ In v avail /\
    populateVoiceList avail s
      = set_selectedVoiceURI (voiceURI v) (set_voices avail s).
Proof.
  intros Hs Hu Hne.
  destruct (defaultVoice_spec avail (selectedLanguage s) Hne)
    as (v & Hd & Hin & _).
  exists v. split; [exact Hd|]. split; [exact Hin|].
  unfold populateVoiceList. rewrite Hs, Hu, Hd.
  destruct avail; [congruence|reflexivity].
Qed.

Lemma speak_with_selected avail s text v :
  synthRef s = true -> NoDup (map voiceURI avail) -> In v avail ->
  queued (speakText text
            (set_selectedVoiceURI (voiceURI v) (set_voices avail s)))
  = ((if is_some (spoken s) then [] else queued s)
       ++ [ {| u_text := text; u_lang := selectedLanguage s;
               u_voice := Some v |} ])%list.
Proof.
  intros Hs Hnd Hin. unfold speakText. cbn. rewrite Hs. cbn.
  unfold resolve_voice. rewrite (find_unique_uri avail v Hnd Hin).
  destruct (is_some (spoken s)); reflexivity.
Qed.

(** X17.  When the enumerated voices have distinct URIs, the utterance that
    [speakText] queues once [populateVoiceList] has filled an empty
    selection carries the default voice itself, which has the selected
    language whenever a voice of that language is enumerated.  (Nothing is
    said of the utterances queued before: the state changes of
    [populateVoiceList] make the set-up effect run again, and its cleanup
    cancels them.) *)
Theorem default_selection_is_the_voice_spoken
    (avail : list voice) (s : state) (text : string) :
  synthRef s = true ->
  selectedVoiceURI s = "" ->
  avail <> [] ->
  NoDup (map voiceURI avail) ->
  exists v,
    defaultVoice avail (selectedLanguage s) = Some v /\
    selectedVoiceURI (populateVoiceList avail s) = voiceURI v /\
    (exists rest,
       queued (speakText text (populateVoiceList avail s))
         = (rest ++ [ {| u_text := text; u_lang := selectedLanguage s;
                         u_voice := Some v |} ])%list) /\
    (existsb (fun w => String.eqb (lang w) (selectedLanguage s)) avail = true ->
     lang v = selectedLanguage s).
Proof.
  intros Hs Hu Hne Hnd.
  destruct (populate_empty_selection avail s Hs Hu Hne) as (v & Hd & Hin & ->).
  exists v. split; [exact Hd|]. split; [reflexivity|].
  split; [eexists; exact (speak_with_selected avail s text v Hs Hnd Hin)|].
  destruct (defaultVoice_spec avail (selectedLanguage s) Hne)
    as (w & Hw & _ & Hwl & _).
  assert (w = v) by congruence. now subst w.
Qed.

Lemma default_selection_is_the_voice_spoken_witness :
  exists rest,
    queued (speakText "Get up."
              (populateVoiceList [plain_mr; plain_en; google_en]
                 (initial true true [] "" "en-US")))
    = (rest ++ [ {| u_text := "Get up."; u_lang := "en-US";
                    u_voice := Some google_en |} ])%list.
Proof.
  destruct (default_selection_is_the_voice_spoken
              [plain_mr; plain_en; google_en]
              (initial true true [] "" "en-US") "Get up."
              eq_refl eq_refl) as (v & Hd & _ & Hq & _).
  - discriminate.
  - vm_compute. repeat constructor; simpl; intuition discriminate.
  - vm_compute in Hd. injection Hd as <-. exact Hq.
Defined.

Lemma handleLanguageChange_selection newLang s :
  synthRef (handleLanguageChange newLang s) = synthRef s /\
  selectedVoiceURI (handleLanguageChange newLang s) = "" /\
  selectedLanguage (handleLanguageChange newLang s) = newLang /\
  voices (handleLanguageChange newLang s) = voices s.
Proof.
  destruct s as [li ut ar sp lo vs uri la tu tq rr sr rc spk qu ca ge rf fs].
  unfold handleLanguageChange, toggleListening, speakText, cancel. cbn.
  destruct li, rr, sr, spk; cbn; repeat split.
Qed.

(** X18.  After [handleLanguageChange] and the [populateVoiceList] that
    follows it, the language is the new one and, when the enumerated voices
    have distinct URIs and one of them has the new language, the selected
    voice has the new language and is the one [speakText] speaks with. *)
Theorem language_change_reselects_for_the_new_language
    (newLang : string) (avail : list voice) (s : state) (text : string) :
  synthRef s = true ->
  NoDup (map voiceURI avail) ->
  existsb (fun w => String.eqb (lang w) newLang) avail = true ->
  let s' := populateVoiceList avail (handleLanguageChange newLang s) in
  selectedLanguage s' = newLang /\
  voices s' = avail /\
  exists v,
    selectedVoiceURI s' = voiceURI v /\ In v avail /\ lang v = newLang /\
    exists rest,
      queued (speakText text s')
        = (rest ++ [ {| u_text := text; u_lang := newLang;
                        u_voice := Some v |} ])%list.
Proof.
  intros Hs Hnd Hex s'.
  assert (Hne : avail <> []) by (destruct avail; [discriminate|congruence]).
  destruct (handleLanguageChange_selection newLang s) as (H1 & H2 & H3 & _).
  rewrite Hs in H1.
  destruct (populate_empty_selection avail _ H1 H2 Hne) as (v & Hd & Hin & Hp).
  subst s'. rewrite Hp. cbn [selectedLanguage voices set_selectedVoiceURI
                              set_voices selectedVoiceURI].
  rewrite H3 in *.
  split; [reflexivity|]. split; [reflexivity|].
  exists v. split; [reflexivity|]. split; [exact Hin|]. split.
  - destruct (defaultVoice_spec avail newLang Hne) as (w & Hw & _ & Hwl & _).
    assert (w = v) by congruence. subst w. now apply Hwl.
  - eexists. rewrite (speak_with_selected avail _ text v H1 Hnd Hin).
    now rewrite H3.
Qed.

Lemma language_change_reselects_for_the_new_language_witness :
  selectedVoiceURI
    (populateVoiceList [plain_mr; plain_en; google_en]
       (handleLanguageChange "mr-IN"
          (populateVoiceList [plain_mr; plain_en; google_en]
             (initial true true [] "" "en-US"))))
  = "Lekha".
Proof.
  destruct (language_change_reselects_for_the_new_language "mr-IN"
              [plain_mr; plain_en; google_en]
              (populateVoiceList [plain_mr; plain_en; google_en]
                 (initial true true [] "" "en-US")) "x")
    as (_ & _ & v & Huri & Hin & Hl & _).
  - vm_compute. reflexivity.
  - vm_compute. repeat constructor; simpl; intuition discriminate.
  - vm_compute. reflexivity.
  - vm_compute. reflexivity.
Defined.

End PageMore.

(* ===================================================================== *)
(** ** From the session to the stored turn *)
(* ===================================================================== *)

Module SessionMore.
Import JS Motivate Observe Page ExtraSamples Samples.

Lemma generation_request_fields query language session :
  destructure (body (generation_request query language session))
  = Ok {| prompt := Some (JStr query);
          inputLanguage := Some (JStr language);
          outputLanguage := Some (JStr language);
          userId := Some (JStr (or_else (match session with
                                         | Some u => id u
                                         | None => None
                                         end) "anonymous"));
          userName := Some (JStr (or_else (match session with
                                           | Some u => user_name u
                                           | None => None
                                           end) "Guest")) |}.
Proof. reflexivity. Qed.

Lemma or_else_nonempty a d : d <> "" -> or_else a d <> "".
Proof. destruct a as [[|c r]|]; simpl; auto; discriminate. Qed.

(** The first name the handler derives from a name that is a string. *)
Lemma userFirstName_string n :
  userFirstName (Some (JStr n))
  = Ok (if String.eqb n "" || String.eqb n "Guest" then ""
        else Str.first (Str.split " "%char n)).
Proof.
  unfold userFirstName. simpl.
  destruct (String.eqb n ""); simpl; [reflexivity|].
  destruct (String.eqb n "Guest"); reflexivity.
Qed.

(** X19.  The request the page sends is refused (400) exactly when the
    transcript is empty.  Otherwise it is answered 200 or 500, and any
    prompt sent to the generation backend carries the transcript, the first
    name of the signed-in user (none for a session without a name, or
    named 'Guest') and the name of the selected language. *)
Theorem page_request_is_refused_only_for_an_empty_transcript
    gt e (query language : string) (session : option session_user) :
  let req := generation_request query language session in
  let name := or_else (match session with
                       | Some u => user_name u
                       | None => None
                       end) "Guest" in
  if String.eqb query "" then
    handler gt e req = ([], Ok (respond 400 "Prompt is required"))
  else
    exists r,
      snd (handler gt e req) = Ok r /\
      (status r = 200 \/ status r = 500) /\
      forall p, In p (calls (fst (handler gt e req))) ->
        p_prompt p = query /\
        p_userFirstName p
          = (if String.eqb name "Guest" then ""
             else Str.first (Str.split " "%char name)) /\
        p_language p
          = (if String.eqb language "mr-IN" then "Marathi" else "English").
Proof.
  intros req name.
  pose proof (generation_request_fields query language session) as Hd.
  fold req in Hd.
  destruct (String.eqb query "") eqn:Hq.
  - rewrite (MotivateFacts.handler_post gt e req _ eq_refl Hd). simpl.
    now rewrite Hq.
  - rewrite (MotivateFacts.handler_accepted gt e req _ eq_refl Hd);
      [|simpl; now rewrite Hq].
    match type of Hd with _ = Ok ?f0 => set (f := f0) in * end.
    destruct (MotivateMore.reply_effects gt e f) as [_ Hc].
    assert (Hname : userFirstName (userName f)
                    = Ok (if String.eqb name "Guest" then ""
                          else Str.first (Str.split " "%char name))).
    { subst f. cbn [userName]. fold name. rewrite userFirstName_string.
      assert (Hne : String.eqb name "" = false).
      { apply String.eqb_neq. apply or_else_nonempty. discriminate. }
      now rewrite Hne. }
    assert (Hcalls : forall l, calls l = calls (fst (reply gt e f)) ->
              forall p, In p (calls l) ->
                p_prompt p = query /\
                p_userFirstName p
                  = (if String.eqb name "Guest" then ""
                     else Str.first (Str.split " "%char name)) /\
                p_language p
                  = (if String.eqb language "mr-IN" then "Marathi"
                     else "English")).
    { intros l -> p Hin.
      destruct Hc as [Hc|(n & t & Hn & Ht & Hc)]; rewrite Hc in Hin;
        [destruct Hin|].
      destruct Hin as [<-|[]]. rewrite Hname in Hn. injection Hn as <-.
      subst f. cbn in Ht. injection Ht as <-.
      repeat split. }
    destruct (reply gt e f) as [l [final|err]]; simpl in Hcalls |- *.
    + destruct (insertOne e); eexists; (split; [reflexivity|]);
        (split; [simpl; tauto|]); apply Hcalls; simpl;
        rewrite MotivateMore.calls_app; simpl; now rewrite app_nil_r.
    + eexists. split; [reflexivity|]. split; [simpl; tauto|].
      apply Hcalls. simpl. rewrite MotivateMore.calls_app. simpl.
      now rewrite app_nil_r.
Qed.

(** X20.  A turn stored for a request of the page carries the identity of
    the session's token: the token's subject as userId ('anonymous' when it
    has none), its name as userName ('Guest' when it has none), the
    transcript, which is not empty, and the selected language twice. *)
Theorem stored_turn_carries_the_identity_of_the_token
    gt e (query language : string) (sess : Auth.Session) (token : Auth.JWT)
    (doc : interaction) :
  In doc (writes (fst (handler gt e
            (generation_request query language
               (Some (Auth.user (Auth.session sess (Some token)))))))) ->
  doc_userId doc = Some (JStr (or_else (Auth.sub token) "anonymous")) /\
  doc_userName doc = Some (JStr (or_else (Auth.name token) "Guest")) /\
  doc_userPrompt doc = Some (JStr query) /\
  doc_inputLanguage doc = Some (JStr language) /\
  doc_outputLanguage doc = Some (JStr language) /\
  query <> "".
Proof.
  set (req := generation_request query language _).
  pose proof (generation_request_fields query language
                (Some (Auth.user (Auth.session sess (Some token))))) as Hd.
  fold req in Hd. cbn [Auth.session Auth.user id user_name] in Hd.
  destruct (String.eqb query "") eqn:Hq.
  - rewrite (MotivateFacts.handler_post gt e req _ eq_refl Hd). simpl.
    rewrite Hq. simpl. tauto.
  - rewrite (MotivateFacts.handler_accepted gt e req _ eq_refl Hd);
      [|simpl; now rewrite Hq].
    match type of Hd with _ = Ok ?f0 => set (f := f0) in * end.
    destruct (MotivateMore.reply_effects gt e f) as [Hw _].
    apply String.eqb_neq in Hq.
    destruct (reply gt e f) as [l [final|err]]; simpl in Hw |- *.
    + destruct (insertOne e); simpl; rewrite MotivateMore.writes_app, Hw;
        simpl; intros [<-|[]]; repeat split; assumption.
    + rewrite MotivateMore.writes_app, Hw. simpl. tauto.
Qed.

Lemma stored_turn_carries_the_identity_of_the_token_witness :
  exists doc,
    writes (fst (handler no_coercion
              (sample_env (sample_reply (JObj [("text", JStr "get up.")]))
                          (Ok tt))
              (generation_request "I failed" "en-US"
                 (Some (Auth.user
                          (Auth.session {| Auth.user := ada;
                                           Auth.expires := "" |}
                                        (Some ada_token)))))))
    = [doc] /\
    doc_userId doc = Some (JStr "108").
Proof.
  eexists. split; [vm_compute; reflexivity|].
  apply (stored_turn_carries_the_identity_of_the_token no_coercion
           (sample_env (sample_reply (JObj [("text", JStr "get up.")]))
                       (Ok tt))
           "I failed" "en-US"
           {| Auth.user := ada; Auth.expires := "" |} ada_token).
  vm_compute. left. reflexivity.
Defined.

(** X9.  A turn of the page that is answered 200 has stored one document,
    whose userId is the id of the session's user ('anonymous' without one).
    For the statistics handler this one document more raises totalQueries
    by one, and raises totalUsers by one exactly when no document of the
    collection carried that userId; otherwise totalUsers stays as it
    was.  (The userId of the documents already stored is a string or
    null, and each statistics request finds the collection unchanged
    between its two queries.) *)
Theorem one_more_turn_counts_once
    gt e (query language : string) (session : option session_user)
    (m : string) (collection : Stats.env) (u q : nat) :
  snd (handler gt e (generation_request query language session))
    = Ok (respond 200 m) ->
  snd (Stats.handler collection "GET")
    = {| Stats.status := 200; Stats.json := Stats.Counters u q |} ->
  let uid := or_else (match session with
                      | Some usr => id usr
                      | None => None
                      end) "anonymous" in
  exists doc d,
    writes (fst (handler gt e (generation_request query language session)))
      = [doc] /\
    doc_aiResponse doc = m /\
    stored doc = Some d /\
    Stats.userId d = Some uid /\
    snd (Stats.handler (store d collection) "GET")
      = {| Stats.status := 200;
           Stats.json :=
             Stats.Counters
               (if in_dec Stats.userId_eq_dec (Some uid)
                          (map Stats.userId (Stats.interactions collection))
                then u else S u)
               (S q) |}.
Proof.
  intros H200 Hstats uid.
  set (req := generation_request query language session) in *.
  pose proof (generation_request_fields query language session) as Hd.
  fold req in Hd. fold uid in Hd.
  match type of Hd with _ = Ok ?f0 => set (f := f0) in * end.
  assert (Ht : truthy (prompt f) = true).
  { destruct (truthy (prompt f)) eqn:Ht; [reflexivity|].
    rewrite (MotivateFacts.handler_post gt e req f eq_refl Hd), Ht in H200.
    discriminate. }
  rewrite (MotivateFacts.handler_accepted gt e req f eq_refl Hd Ht) in H200 |- *.
  destruct (MotivateMore.reply_effects gt e f) as [Hw _].
  destruct (reply gt e f) as [l [final|err]]; cbn in Hw, H200;
    [|discriminate].
  destruct (insertOne e) as [[]|err]; cbn in H200; [|discriminate].
  injection H200 as <-.
  exists (record_of e f final), {| Stats.userId := Some uid |}.
  split; [cbn; now rewrite MotivateMore.writes_app, Hw|].
  split; [reflexivity|]. split; [reflexivity|]. split; [reflexivity|].
  destruct (StatsMore.handler_200 collection "GET" u q Hstats)
    as (-> & -> & H1 & H2 & H3).
  rewrite (StatsMore.handler_ok (store _ collection)) by assumption.
  cbn [snd store Stats.interactions]. unfold Stats.distinct_userId.
  rewrite map_app. cbn [map Stats.userId].
  rewrite length_app, StatsMore.length_nodup_snoc. cbn [List.length].
  destruct (in_dec _ _ _); do 2 f_equal; lia.
Qed.

Lemma one_more_turn_counts_once_witness :
  exists doc d,
    writes (fst (handler no_coercion
              (sample_env (sample_reply (JObj [("text", JStr "get up.")]))
                          (Ok tt))
              (generation_request "I failed" "en-US" (Some ada))))
      = [doc] /\
    stored doc = Some d /\
    snd (Stats.handler (store d StatsSamples.three_turns) "GET")
      = {| Stats.status := 200; Stats.json := Stats.Counters 3 4 |}.
Proof.
  destruct (one_more_turn_counts_once no_coercion
              (sample_env (sample_reply (JObj [("text", JStr "get up.")]))
                          (Ok tt))
              "I failed" "en-US" (Some ada) "Get up."
              StatsSamples.three_turns 2 3 eq_refl eq_refl)
    as (doc & d & Hw & _ & Hs & _ & Hc).
  exists doc, d. split; [exact Hw|]. split; [exact Hs|exact Hc].
Defined.

(** X21.  What the [jwt] callback adds at sign-in (the access token and the
    user id) never reaches the session: the session built from the token it
    returns is the session built from the token it received.  Without an
    account the token is returned unchanged. *)
Theorem sign_in_data_never_reaches_the_session
    (sess : Auth.Session) (token token' : Auth.JWT)
    (u : option Auth.User) (account : option Auth.Account) :
  Auth.jwt token u account = Ok token' ->
  Auth.session sess (Some token') = Auth.session sess (Some token) /\
  Auth.sub token' = Auth.sub token /\
  (account = None -> token' = token).
Proof.
  unfold Auth.jwt.
  destruct account as [a|]; [destruct u as [usr|]|]; intros [= <-];
    repeat split; try reflexivity; discriminate.
Qed.

Lemma sign_in_data_never_reaches_the_session_witness :
  Auth.session {| Auth.user := ada; Auth.expires := "" |}
    (Some {| Auth.sub := Some "108"; Auth.name := Some "Ada Lovelace";
             Auth.email := Some "ada@example.org"; Auth.picture := None;
             Auth.accessToken := Some "secret"; Auth.id := Some "108" |})
  = Auth.session {| Auth.user := ada; Auth.expires := "" |} (Some ada_token).
Proof.
  apply (sign_in_data_never_reaches_the_session
           {| Auth.user := ada; Auth.expires := "" |} ada_token _
           (Some {| Auth.user_id := Some "108" |})
           (Some {| Auth.access_token := Some "secret" |})).
  reflexivity.
Defined.

(** X22.  The name shown in the header is either the non-empty text before
    the first space of the user's name, or the text before the first [@] of
    the e-mail address. *)
Theorem welcome_name_is_a_first_name_or_a_mailbox
    (session : option session_user) (w : string) :
  welcome_name session = Some w ->
  exists u, session = Some u /\
    ((w <> "" /\ Str.mem " "%char w = false /\
      exists n, user_name u = Some n /\
                (n = w \/ exists rest, n = w ++ String " "%char rest)) \/
     (Str.mem "@"%char w = false /\
      exists m, email u = Some m /\
                (m = w \/ exists rest, m = w ++ String "@"%char rest))).
Proof.
  unfold welcome_name. destruct session as [u|]; [|discriminate].
  intros H. exists u. split; [reflexivity|].
  destruct (user_name u) as [n|] eqn:Hn; simpl in H.
  - destruct (Str.first (Str.split " "%char n)) as [|c r] eqn:Hf.
    + right. destruct (email u) as [m|]; [|discriminate].
      simpl in H. injection H as <-.
      destruct (StrFacts.split_first "@"%char m) as [Hm Hs].
      split; [exact Hm|]. exists m. split; [reflexivity|exact Hs].
    + left. injection H as <-.
      destruct (StrFacts.split_first " "%char n) as [Hm Hs].
      rewrite Hf in Hm, Hs.
      split; [discriminate|]. split; [exact Hm|].
      exists n. split; [reflexivity|exact Hs].
  - right. destruct (email u) as [m|]; [|discriminate].
    simpl in H. injection H as <-.
    destruct (StrFacts.split_first "@"%char m) as [Hm Hs].
    split; [exact Hm|]. exists m. split; [reflexivity|exact Hs].
Qed.

Lemma welcome_name_is_a_first_name_or_a_mailbox_witness :
  welcome_name (Some ada) = Some "Ada" /\
  exists u, Some ada = Some u.
Proof.
  split; [reflexivity|].
  destruct (welcome_name_is_a_first_name_or_a_mailbox (Some ada) "Ada"
              eq_refl) as (u & Hu & _).
  exists u. exact Hu.
Defined.

End SessionMore.

(* ===================================================================== *)
(** ** Who sees which page *)
(* ===================================================================== *)

Module NavigationMore.
Import Navigation.

(** X23.  For a given session status the two pages never send the user back
    and forth: after at most one redirect no page redirects any more.
    While loading nobody is redirected; an authenticated user ends on the
    main page and an unauthenticated one on the login card; and the page
    sets up speech and statistics exactly when it renders its main
    content. *)
Theorem redirects_settle_at_once (r : route) (st : status) (n : nat) :
  settle (S n) r st = settle 1 r st /\
  redirect (settle 1 r st) st = None /\
  (st = loading -> settle 1 r st = r /\ render r st = LoadingView) /\
  (st = authenticated ->
     settle 1 r st = Home /\ render (settle 1 r st) st = MainContent) /\
  (st = unauthenticated ->
     settle 1 r st = Login /\ render (settle 1 r st) st = LoginCard) /\
  (initializes r st = true <-> render r st = MainContent).
Proof.
  split.
  - destruct n as [|n]; [reflexivity|].
    destruct r, st; simpl; destruct n; reflexivity.
  - destruct r, st; simpl; repeat split; intros; try discriminate;
      try reflexivity.
Qed.

End NavigationMore.
